(** * The AI web-builder agent (agent/main.py): conversation log and
      reply extraction

    A shallow embedding of [AIWebAgent]: the regular-expression search of
    [extract_code_from_response], [str.strip], the mutable agent object and
    the orchestration of [generate_website] around the external completion
    call. *)

From Stdlib Require Import String Ascii.
From Stdlib Require Import NArith Arith Bool Lia List.
Import ListNotations.

Set Implicit Arguments.

(** ** Python strings *)

Module PyStr.

(** A Python [str] is a sequence of Unicode code points. *)
Definition char := N.
Definition str := list char.

(** A literal of the source, character by character. *)
Definition py (s : string) : str := map N_of_ascii (list_ascii_of_string s).

Definition nl : char := 10%N.
Definition backtick : char := 96%N.

(** [c.isspace()] for a single code point, the set [str.strip] removes. *)
Definition isspace (c : char) : bool :=
  ((9 <=? c) && (c <=? 13) || (28 <=? c) && (c <=? 32)
   || (c =? 133) || (c =? 160) || (c =? 5760)
   || (8192 <=? c) && (c <=? 8202)
   || (c =? 8232) || (c =? 8233) || (c =? 8239) || (c =? 8287)
   || (c =? 12288))%N.

Fixpoint lstrip (s : str) : str :=
  match s with
  | [] => []
  | c :: s' => if isspace c then lstrip s' else s
  end.

Definition rstrip (s : str) : str := rev (lstrip (rev s)).

(** [s.strip()] *)
Definition strip (s : str) : str := rstrip (lstrip s).

(** [s.startswith(p)]: the literal [p] matches at the head of [s]. *)
Fixpoint startswith (p s : str) : bool :=
  match p, s with
  | [], _ => true
  | _ :: _, [] => false
  | a :: p', b :: s' => (a =? b)%N && startswith p' s'
  end.

(** [p] occurs somewhere in [s]. *)
Definition contains (p s : str) : Prop := exists a b, s = a ++ p ++ b.

End PyStr.
Import PyStr.

(** ** The two fence patterns of [extract_code_from_response]

    Both patterns have the shape  opener ([\s\S]*?) closer  with literal
    opener and closer; [[\s\S]] accepts every character, newlines too. *)

Module Fence.

Definition ticks : str := py "```".
(** opener of the pattern with the language marker *)
Definition html_open : str := py "```html" ++ [nl].
(** opener of the pattern without language specifier *)
Definition generic_open : str := py "```" ++ [nl].
(** closer of both patterns *)
Definition fence_close : str := nl :: py "```".

Arguments ticks : simpl never.
Arguments html_open : simpl never.
Arguments generic_open : simpl never.
Arguments fence_close : simpl never.

(** The lazy group followed by the closer, tried at the head of [s]: the
    group grows one character at a time until the closer matches; [None]
    when the text runs out. *)
Fixpoint lazy_body (closer s : str) {struct s} : option str :=
  if startswith closer s then Some []
  else match s with
       | [] => None
       | c :: s' => option_map (cons c) (lazy_body closer s')
       end.

(** One match attempt of  opener (.*?) closer  anchored at the head of
    [s]; the result is group 1. *)
Definition match_at (opener closer s : str) : option str :=
  if startswith opener s
  then lazy_body closer (skipn (length opener) s)
  else None.

(** [re.search]: the attempts go from left to right, the first position
    that matches wins. [pos] is the offset of [s] in the searched text; the
    result is [(m.start(), m.group(1))]. *)
Fixpoint re_search (opener closer : str) (pos : nat) (s : str)
  {struct s} : option (nat * str) :=
  match match_at opener closer s with
  | Some body => Some (pos, body)
  | None =>
      match s with
      | [] => None
      | _ :: s' => re_search opener closer (S pos) s'
      end
  end.

End Fence.
Import Fence.

(** ** [AIWebAgent.extract_code_from_response] *)

(** Returns [(explanation, code)]. *)
Definition extract_code_from_response (response : str) : str * str :=
  match re_search html_open fence_close 0 response with
  | Some (start, group1) => (strip (firstn start response), strip group1)
  | None =>
      match re_search generic_open fence_close 0 response with
      | Some (start, group1) => (strip (firstn start response), strip group1)
      | None => (response, [])
      end
  end.

(** ** The agent object and its effects *)

Module Agent.

(** A reading of [datetime.now()]. *)
Definition datetime := N.

Record Message := {
  role : str;          (* 'user' or 'assistant' *)
  content : str;
  timestamp : datetime
}.

(** The attributes of an [AIWebAgent] instance. *)
Record AIWebAgent := {
  api_key : option str;
  conversation_history : list Message;
  generated_code : str;
  system_prompt : str
}.

(** The dictionaries [{"role": .., "content": ..}] sent to the API. *)
Record ApiMessage := { msg_role : str; msg_content : str }.

(** The dictionary [generate_website] returns. *)
Record GenResult := { code : str; explanation : str; error : str }.

(** What the method does towards the outside: the calls of
    [_call_openai_api], each with the key and the message list handed to
    it, and the lines printed. Whether a call gets as far as putting a
    request on the network is part of the endpoint's answer. *)
Inductive Event :=
| ApiCall (key : str) (messages : list ApiMessage)
| Stdout (line : str).

Record World := { self : AIWebAgent; trace : list Event }.

(** A method body either returns a value or leaves with an [Exception]
    [e], kept as [str(e)]. *)
Inductive outcome (A : Type) :=
| Returned (a : A)
| Raised (e : str).
Arguments Returned {A} a.
Arguments Raised {A} e.

Definition M (A : Type) : Type := World -> outcome A * World.

Definition ret {A} (a : A) : M A := fun w => (Returned a, w).

Definition bind {A B} (m : M A) (k : A -> M B) : M B :=
  fun w =>
    match m w with
    | (Returned a, w') => k a w'
    | (Raised e, w') => (Raised e, w')
    end.

(** [try: body  except Exception as e: handler(str(e))] *)
Definition try_except {A} (body : M A) (handler : str -> M A) : M A :=
  fun w =>
    match body w with
    | (Returned a, w') => (Returned a, w')
    | (Raised e, w') => handler e w'
    end.

Definition get_self : M AIWebAgent := fun w => (Returned (self w), w).

Definition set_self (a : AIWebAgent) : M unit :=
  fun w => (Returned tt, {| self := a; trace := trace w |}).

Definition emit (ev : Event) : M unit :=
  fun w => (Returned tt, {| self := self w; trace := trace w ++ [ev] |}).

Declare Scope py_scope.
Delimit Scope py_scope with py.
Notation "x <- m ;; k" := (bind m (fun x => k))
  (at level 61, m at next level, right associativity) : py_scope.
Notation "m ;; k" := (bind m (fun _ => k))
  (at level 61, right associativity) : py_scope.
Local Open Scope py_scope.

(** The world outside the process during one call: the clock readings of
    the two [datetime.now()] and how a call of [_call_openai_api] ends, with
    a reply text or with a failure (the import of the client, the encoding
    of the headers, network, status, payload shape). *)
Record Env := {
  now_user : datetime;
  now_assistant : datetime;
  completion : str -> list ApiMessage -> outcome str
}.

(** Truth value of [self.api_key]: [None] and the empty string are false. *)
Definition truthy (k : option str) : bool :=
  match k with
  | Some (_ :: _) => true
  | _ => false
  end.

(** [l[-k:]]; as [-0] is [0], [l[-0:]] is the whole list. *)
Definition last_slice {A} (k : nat) (l : list A) : list A :=
  match k with
  | 0 => l
  | _ => skipn (length l - k) l
  end.

Definition SYSTEM_PROMPT : str := py
"You are an expert web developer specializing in modern, clean HTML, CSS, and vanilla JavaScript. Your task is to create complete, professional websites based on user requests.

Rules:
1. Generate a single HTML file with embedded CSS (in <style>) and JavaScript (in <script>)
2. Use modern HTML5 semantic elements, CSS Grid/Flexbox, CSS custom properties
3. Include responsive design for mobile, tablet, and desktop
4. Use modern CSS features (oklch colors, :has(), container queries where appropriate)
5. Ensure accessibility (ARIA labels, semantic HTML, keyboard navigation)
6. Keep JavaScript minimal and focused on necessary interactivity
7. No external libraries or frameworks - pure vanilla HTML/CSS/JS
8. Provide complete, working code that renders immediately
9. Include a proper DOCTYPE, viewport meta tag, and character encoding
10. Use placeholder images from https://via.placeholder.com when images are needed

When the user asks to modify an existing website, update the entire HTML file with the changes applied.

Respond with the complete HTML code within \`\`\`html and \`\`\` code blocks. Add a brief explanation before the code block.".

(** [__init__]: [api_key or os.getenv("OPENAI_API_KEY")]. *)
Definition init (key env_key : option str) : AIWebAgent :=
  {| api_key := if truthy key then key else env_key;
     conversation_history := [];
     generated_code := [];
     system_prompt := SYSTEM_PROMPT |}.

Definition set_api_key (key : str) : M unit :=
  a <- get_self ;;
  set_self {| api_key := Some key;
              conversation_history := conversation_history a;
              generated_code := generated_code a;
              system_prompt := system_prompt a |}.

Definition add_message (now : datetime) (r c : str) : M unit :=
  a <- get_self ;;
  let message := {| role := r; content := c; timestamp := now |} in
  set_self {| api_key := api_key a;
              conversation_history := conversation_history a ++ [message];
              generated_code := generated_code a;
              system_prompt := system_prompt a |}.

Definition set_generated_code (c : str) : M unit :=
  a <- get_self ;;
  set_self {| api_key := api_key a;
              conversation_history := conversation_history a;
              generated_code := c;
              system_prompt := system_prompt a |}.

(** [_call_openai_api], called with the messages; the key is read from
    the agent. The event records the call, not that a request went out. *)
Definition call_openai_api (env : Env) (messages : list ApiMessage)
  : M str :=
  a <- get_self ;;
  let key := match api_key a with Some k => k | None => py "None" end in
  emit (ApiCall key messages) ;;
  fun w => (completion env key messages, w).

Definition print (line : str) : M unit := emit (Stdout line).

(** The list built at lines 131-139. *)
Definition outbound_messages (a : AIWebAgent) : list ApiMessage :=
  {| msg_role := py "system"; msg_content := system_prompt a |}
  :: map (fun msg => {| msg_role := role msg; msg_content := content msg |})
         (last_slice 10 (conversation_history a)).

Definition generate_website (env : Env) (user_request : str)
  : M GenResult :=
  a <- get_self ;;
  if negb (truthy (api_key a)) then
    ret {| code := []; explanation := [];
           error := py "API key not set. Please set your OpenAI API key." |}
  else
    add_message (now_user env) (py "user") user_request ;;
    try_except
      (a <- get_self ;;
       let messages := outbound_messages a in
       response_text <- call_openai_api env messages ;;
       let '(expl, gen) := extract_code_from_response response_text in
       set_generated_code gen ;;
       add_message (now_assistant env) (py "assistant") response_text ;;
       ret {| code := gen; explanation := expl; error := [] |})
      (fun e =>
         let error_msg := py "Error generating website: " ++ e in
         print error_msg ;;
         ret {| code := []; explanation := []; error := error_msg |}).

Definition clear_history : M unit :=
  a <- get_self ;;
  set_self {| api_key := api_key a;
              conversation_history := [];
              generated_code := [];
              system_prompt := system_prompt a |}.

End Agent.
Import Agent.

(** ** Fences, as properties of the text *)

(** The literal [p] occurs in [s] at offset [k]. *)
Definition occurs_at (p s : str) (k : nat) : Prop :=
  exists r, skipn k s = p ++ r.

(** A fenced block with opening marker [op] starts at offset [k] of [s]. *)
Definition fence_at (op s : str) (k : nat) : Prop :=
  exists b r, skipn k s = op ++ b ++ fence_close ++ r.

(** [s] holds a fenced block with opening marker [op]. *)
Definition has_fence (op s : str) : Prop :=
  exists pre b post, s = pre ++ op ++ b ++ fence_close ++ post.

(** [pre ++ op ++ body ++ fence_close ++ post] cuts [s] at its first fenced
    block: no block starts inside [pre], and the closing marker after
    [body] is the first one after the opening marker. *)
Definition first_fence (op s pre body post : str) : Prop :=
  s = pre ++ op ++ body ++ fence_close ++ post
  /\ (forall k, k < length pre -> ~ fence_at op s k)
  /\ (forall k, k < length body ->
        ~ occurs_at fence_close (body ++ fence_close ++ post) k).

(** The literal [p] occurs nowhere in [s]. *)
Definition absent (p s : str) : Prop := forall k, ~ occurs_at p s k.

(** The replies of the specification's examples. *)
Definition html_example : str :=
  py "Here you go" ++ [nl] ++ py "```html" ++ [nl] ++ py "<p>hi</p>"
    ++ [nl] ++ py "```" ++ [nl] ++ py "Trailing".

Definition untagged_example : str :=
  py "```" ++ [nl] ++ py "<p>x</p>" ++ [nl] ++ py "```".

Definition css_then_untagged_example : str :=
  py "```css" ++ [nl] ++ py "body{}" ++ [nl] ++ py "```" ++ [nl]
    ++ py "And here is the page:" ++ [nl]
    ++ py "```" ++ [nl] ++ py "<p>x</p>" ++ [nl] ++ py "```".

Definition css_example : str :=
  py "Some styles:" ++ [nl] ++ py "```css" ++ [nl] ++ py "p { color: red }"
    ++ [nl] ++ py "```".

(** A world for concrete runs: a fresh agent built with credential [k], a
    clock that reads 1 and then 2, an endpoint that always gives [answer]. *)
Definition demo_env (answer : outcome str) : Env :=
  {| now_user := 1%N; now_assistant := 2%N;
     completion := fun _ _ => answer |}.

Definition demo_world (k : option str) : World :=
  {| self := init k None; trace := [] |}.

(** ** The other methods of [AIWebAgent] *)

Module AgentIO.

Local Open Scope py_scope.

(** [bool(s)] for a string: the empty string is false. *)
Definition bool_str (s : str) : bool :=
  match s with
  | [] => false
  | _ :: _ => true
  end.

(** The dictionaries of [get_conversation_history]. *)
Record HistoryEntry := {
  entry_role : str;
  entry_content : str;
  entry_timestamp : str
}.

(** [get_conversation_history]; [isoformat] is [datetime.isoformat]. *)
Definition get_conversation_history (isoformat : datetime -> str)
  : M (list HistoryEntry) :=
  a <- get_self ;;
  ret (map (fun msg => {| entry_role := role msg;
                          entry_content := content msg;
                          entry_timestamp := isoformat (timestamp msg) |})
           (conversation_history a)).

(** What [save_code_to_file] asks of the file system, in order. *)
Inductive FsEvent :=
| Makedirs (path : str)
| OpenW (path : str)
| FWrite (path data : str).

(** The file system during one call: [os.path.dirname], and whether
    [os.makedirs(d, exist_ok=True)], [open(p, "w", encoding="utf-8")] and
    [f.write(data)] go through or raise. *)
Record FileSystem := {
  dirname : str -> str;
  makedirs : str -> outcome unit;
  open_w : str -> outcome unit;
  write : str -> str -> outcome unit
}.

(** [save_code_to_file]: the agent is only read; the result is how the
    method leaves and what it asked of the file system. *)
Definition save_code_to_file (fs : FileSystem) (filepath : str)
  (a : AIWebAgent) : outcome unit * list FsEvent :=
  if bool_str (generated_code a) then
    let d := dirname fs filepath in
    match makedirs fs d with
    | Raised e => (Raised e, [Makedirs d])
    | Returned _ =>
        match open_w fs filepath with
        | Raised e => (Raised e, [Makedirs d; OpenW filepath])
        | Returned _ =>
            (write fs filepath (generated_code a),
             [Makedirs d; OpenW filepath;
              FWrite filepath (generated_code a)])
        end
    end
  else (Returned tt, []).

End AgentIO.
Import AgentIO.

(** ** The endpoints of agent/server.py over the one shared agent *)

Module Server.

Local Open Scope py_scope.

(** JSON contents of the responses. *)
#[warnings="-register-all"]
Inductive JSON :=
| JNull
| JBool (b : bool)
| JInt (n : nat)
| JStr (s : str)
| JList (items : list JSON)
| JDict (fields : list (str * JSON)).

Record Response := { status_code : nat; body : JSON }.

(** [JSONResponse(status_code=.., content=..)]; a dictionary returned by an
    endpoint is sent with status 200. *)
Definition JSONResponse (status : nat) (c : JSON) : Response :=
  {| status_code := status; body := c |}.

Record MessageRequest := { message : str; request_api_key : option str }.

Record ClearHistoryRequest := { confirm : bool }.

(** [POST /api/chat] *)
Definition chat (env : Env) (request : MessageRequest) : M Response :=
  (match request_api_key request with
   | Some (c :: k) => set_api_key (c :: k)
   | _ => ret tt
   end) ;;
  a <- get_self ;;
  if negb (truthy (api_key a)) then
    ret (JSONResponse 400
           (JDict [(py "error",
                    JStr (py "API key not set. Please provide an API key."));
                   (py "code", JStr []);
                   (py "explanation", JStr [])]))
  else
    result <- generate_website env (message request) ;;
    if bool_str (error result) then
      ret (JSONResponse 500
             (JDict [(py "code", JStr (code result));
                     (py "explanation", JStr (explanation result));
                     (py "error", JStr (error result))]))
    else
      ret (JSONResponse 200
             (JDict [(py "code", JStr (code result));
                     (py "explanation", JStr (explanation result));
                     (py "error", JNull)])).

Definition entry_json (e : HistoryEntry) : JSON :=
  JDict [(py "role", JStr (entry_role e));
         (py "content", JStr (entry_content e));
         (py "timestamp", JStr (entry_timestamp e))].

(** [GET /api/history] *)
Definition get_history (isoformat : datetime -> str) : M Response :=
  h <- get_conversation_history isoformat ;;
  a <- get_self ;;
  ret (JSONResponse 200
         (JDict [(py "history", JList (map entry_json h));
                 (py "has_code", JBool (bool_str (generated_code a)))])).

(** [POST /api/clear] *)
Definition clear_history (request : ClearHistoryRequest) : M Response :=
  if confirm request then
    Agent.clear_history ;;
    ret (JSONResponse 200
           (JDict [(py "message", JStr (py "History cleared successfully"))]))
  else
    ret (JSONResponse 400
           (JDict [(py "error",
                    JStr (py "Please set confirm=true to clear history"))])).

(** [POST /api/download] *)
Definition download_code : M Response :=
  a <- get_self ;;
  if negb (bool_str (generated_code a)) then
    ret (JSONResponse 400
           (JDict [(py "error", JStr (py "No code generated yet"))]))
  else
    ret (JSONResponse 200
           (JDict [(py "code", JStr (generated_code a));
                   (py "filename", JStr (py "generated-website.html"))])).

(** [GET /api/status] *)
Definition get_status : M Response :=
  a <- get_self ;;
  ret (JSONResponse 200
         (JDict [(py "has_api_key", JBool (truthy (api_key a)));
                 (py "has_generated_code",
                  JBool (bool_str (generated_code a)));
                 (py "conversation_length",
                  JInt (length (conversation_history a)))])).

End Server.

(** A file system for concrete runs: every path lies in the directory
    output, and every operation goes through. *)
Definition demo_fs : FileSystem :=
  {| dirname := fun _ => py "output";
     makedirs := fun _ => Returned tt;
     open_w := fun _ => Returned tt;
     write := fun _ _ => Returned tt |}.

(** Helpers for statements on the agent and the endpoints. *)

(** The event is a call of [_call_openai_api]. *)
Definition is_api_call (ev : Event) : bool :=
  match ev with
  | ApiCall _ _ => true
  | Stdout _ => false
  end.

(** The message carries one of the two roles [add_message] is called
    with. *)
Definition known_role (m : Message) : Prop :=
  role m = py "user" \/ role m = py "assistant".

(** The credential in force during [chat]: the one of the request when it
    is not empty, else the agent's. *)
Definition key_in_force (request : Server.MessageRequest) (a : AIWebAgent)
  : option str :=
  if truthy (Server.request_api_key request)
  then Server.request_api_key request
  else api_key a.

(** The credential as a string, for the requests sent with it. *)
Definition credential (a : AIWebAgent) : str :=
  match api_key a with
  | Some k => k
  | None => []
  end.

(** The two messages of a turn. *)
Definition user_turn (env : Env) (user_request : str) : Message :=
  {| role := py "user"; content := user_request;
     timestamp := now_user env |}.

Definition assistant_turn (env : Env) (reply : str) : Message :=
  {| role := py "assistant"; content := reply;
     timestamp := now_assistant env |}.

(** The agent with the user's turn recorded, and with the reply recorded
    as well. *)
Definition asked_agent (env : Env) (user_request : str) (a : AIWebAgent)
  : AIWebAgent :=
  {| api_key := api_key a;
     conversation_history :=
       conversation_history a ++ [user_turn env user_request];
     generated_code := generated_code a;
     system_prompt := system_prompt a |}.

Definition answered_agent (env : Env) (user_request reply : str)
  (a : AIWebAgent) : AIWebAgent :=
  {| api_key := api_key a;
     conversation_history :=
       (conversation_history a ++ [user_turn env user_request])
       ++ [assistant_turn env reply];
     generated_code := snd (extract_code_from_response reply);
     system_prompt := system_prompt a |}.

(** The agent once [chat] has taken over the credential of the request. *)
Definition keyed_agent (request : Server.MessageRequest) (a : AIWebAgent)
  : AIWebAgent :=
  {| api_key := key_in_force request a;
     conversation_history := conversation_history a;
     generated_code := generated_code a;
     system_prompt := system_prompt a |}.

(** ** Facts on strings *)

Section StringFacts.

Lemma startswith_iff (p s : str) :
  startswith p s = true <-> exists r, s = p ++ r.
Proof.
  revert s; induction p as [|a p IH]; intros s; simpl.
  - split; [intros _; now exists s | reflexivity].
  - destruct s as [|b s].
    + split; [discriminate | intros [r Hr]; discriminate].
    + rewrite andb_true_iff, N.eqb_eq, IH. split.
      * intros [-> [r ->]]. now exists r.
      * intros [r Hr]. injection Hr as -> ->. split; [reflexivity | now exists r].
Qed.

Lemma startswith_occurs (p s : str) (k : nat) :
  startswith p (skipn k s) = true <-> occurs_at p s k.
Proof. apply startswith_iff. Qed.

Lemma startswith_false (p s : str) :
  startswith p s = false <-> ~ exists r, s = p ++ r.
Proof.
  rewrite <- startswith_iff. destruct (startswith p s); split; intros H;
    try reflexivity; try discriminate; try (intros E; discriminate).
  exfalso; now apply H.
Qed.

Lemma startswith_app (p r : str) : startswith p (p ++ r) = true.
Proof. apply startswith_iff. now exists r. Qed.

Lemma startswith_weaken (p s t : str) :
  startswith p s = true -> startswith p (s ++ t) = true.
Proof.
  rewrite !startswith_iff. intros [r ->]. exists (r ++ t). now rewrite app_assoc.
Qed.

Lemma lstrip_split (s : str) : exists w, s = w ++ lstrip s.
Proof.
  induction s as [|c s [w IH]]; simpl.
  - now exists [].
  - destruct (isspace c).
    + exists (c :: w). simpl. now f_equal.
    + now exists [].
Qed.

Lemma lstrip_idem (s : str) : lstrip (lstrip s) = lstrip s.
Proof.
  induction s as [|c s IH]; simpl; [reflexivity|].
  destruct (isspace c) eqn:E; [assumption|]. simpl. now rewrite E.
Qed.

Lemma lstrip_snoc (l : str) (c : char) :
  isspace c = false -> lstrip (l ++ [c]) = lstrip l ++ [c].
Proof.
  intros Hc. induction l as [|a l IH]; simpl.
  - now rewrite Hc.
  - destruct (isspace a); [assumption | reflexivity].
Qed.

Lemma rstrip_split (s : str) : exists w, s = rstrip s ++ w.
Proof.
  unfold rstrip. destruct (lstrip_split (rev s)) as [w Hw].
  exists (rev w). rewrite <- rev_app_distr, <- Hw. now rewrite rev_involutive.
Qed.

Lemma rstrip_idem (s : str) : rstrip (rstrip s) = rstrip s.
Proof. unfold rstrip. now rewrite rev_involutive, lstrip_idem. Qed.

(** Trimming the right end keeps a non-blank first character. *)
Lemma lstrip_rstrip (u : str) : lstrip u = u -> lstrip (rstrip u) = rstrip u.
Proof.
  destruct u as [|c u]; [reflexivity|]. simpl.
  destruct (isspace c) eqn:E.
  - intros H. exfalso. destruct (lstrip_split u) as [w Hw].
    apply (f_equal (@length char)) in H. apply (f_equal (@length char)) in Hw.
    rewrite length_app in Hw. simpl in H. lia.
  - intros _. unfold rstrip. simpl. rewrite lstrip_snoc by exact E.
    rewrite rev_app_distr. simpl. now rewrite E.
Qed.

Lemma strip_idem (s : str) : strip (strip s) = strip s.
Proof.
  unfold strip. rewrite lstrip_rstrip by apply lstrip_idem.
  apply rstrip_idem.
Qed.

Lemma strip_split (s : str) : exists w1 w2, s = w1 ++ strip s ++ w2.
Proof.
  destruct (lstrip_split s) as [w1 H1].
  destruct (rstrip_split (lstrip s)) as [w2 H2].
  exists w1, w2. unfold strip. now rewrite <- H2.
Qed.

End StringFacts.

(** ** Facts on the search *)

Section SearchFacts.

Variables op cl : str.

Lemma skipn_exact (a b : str) : skipn (length a) (a ++ b) = b.
Proof. induction a; simpl; auto. Qed.

Lemma lazy_body_eq (s : str) :
  lazy_body cl s =
  if startswith cl s then Some []
  else match s with
       | [] => None
       | c :: s' => option_map (cons c) (lazy_body cl s')
       end.
Proof. destruct s; reflexivity. Qed.

(** The group found is followed by the closer, and the closer does not
    occur earlier. *)
Lemma lazy_body_sound (s b : str) :
  lazy_body cl s = Some b ->
  (exists r, s = b ++ cl ++ r)
  /\ forall k, k < length b -> ~ occurs_at cl s k.
Proof.
  revert b. induction s as [|c s IH]; intros b; rewrite lazy_body_eq;
    destruct (startswith cl _) eqn:E.
  - intros [= <-]. split; [now apply startswith_iff in E|].
    simpl; intros k Hk; lia.
  - discriminate.
  - intros [= <-]. split; [now apply startswith_iff in E|].
    simpl; intros k Hk; lia.
  - destruct (lazy_body cl s) as [b'|]; [|discriminate].
    intros [= <-]. destruct (IH b' eq_refl) as [[r Hr] Hmin]. split.
    + exists r. simpl. now rewrite <- Hr.
    + intros [|k] Hk.
      * rewrite <- startswith_occurs. simpl. now rewrite E.
      * simpl in Hk. unfold occurs_at. simpl. apply Hmin. lia.
Qed.

Lemma lazy_body_complete (b r : str) :
  (forall k, k < length b -> ~ occurs_at cl (b ++ cl ++ r) k) ->
  lazy_body cl (b ++ cl ++ r) = Some b.
Proof.
  induction b as [|c b IH]; intros H; rewrite lazy_body_eq.
  - simpl. now rewrite startswith_app.
  - destruct (startswith cl _) eqn:E.
    + exfalso. apply (H 0); [simpl; lia|]. now apply startswith_occurs.
    + simpl. rewrite IH; [reflexivity|].
      intros k Hk. apply (H (S k)). simpl; lia.
Qed.

Lemma lazy_body_found (s : str) :
  contains cl s -> lazy_body cl s <> None.
Proof.
  intros (a & r & ->). induction a as [|c a IH]; rewrite lazy_body_eq.
  - simpl. now rewrite startswith_app.
  - destruct (startswith cl _); [discriminate|]. simpl.
    destruct (lazy_body cl (a ++ cl ++ r)); [discriminate | contradiction].
Qed.

(** One attempt: what a match gives, and when there is none. *)
Lemma match_at_some (s b : str) :
  match_at op cl s = Some b ->
  exists r, s = op ++ b ++ cl ++ r
            /\ forall k, k < length b -> ~ occurs_at cl (b ++ cl ++ r) k.
Proof.
  unfold match_at. destruct (startswith op s) eqn:E; [|discriminate].
  apply startswith_iff in E as [t ->]. rewrite skipn_exact. intros L.
  destruct (lazy_body_sound _ L) as [[r ->] Hmin]. now exists r.
Qed.

Lemma match_at_first (b r : str) :
  (forall k, k < length b -> ~ occurs_at cl (b ++ cl ++ r) k) ->
  match_at op cl (op ++ b ++ cl ++ r) = Some b.
Proof.
  intros H. unfold match_at. rewrite startswith_app, skipn_exact.
  now apply lazy_body_complete.
Qed.

Lemma match_at_none (s : str) :
  match_at op cl s = None -> ~ exists b r, s = op ++ b ++ cl ++ r.
Proof.
  intros H (b & r & ->). unfold match_at in H.
  rewrite startswith_app, skipn_exact in H.
  apply (@lazy_body_found (b ++ cl ++ r)); [now exists b, r | assumption].
Qed.

Lemma re_search_eq (pos : nat) (s : str) :
  re_search op cl pos s =
  match match_at op cl s with
  | Some body => Some (pos, body)
  | None =>
      match s with
      | [] => None
      | _ :: s' => re_search op cl (S pos) s'
      end
  end.
Proof. destruct s; reflexivity. Qed.

End SearchFacts.

Section FenceFacts.

Variable op : str.

(** A successful search cuts the text at its first fenced block. *)
Lemma re_search_sound (s : str) (pos n : nat) (b : str) :
  re_search op fence_close pos s = Some (n, b) ->
  exists pre post, n = pos + length pre /\ first_fence op s pre b post.
Proof.
  revert pos. induction s as [|c s IH]; intros pos; rewrite re_search_eq;
    destruct (match_at op fence_close _) as [b'|] eqn:E.
  - intros [= <- <-]. apply match_at_some in E as (r & Hs & Hmin).
    exists [], r. split; [simpl; lia|]. split; [exact Hs|].
    split; [simpl; intros; lia | exact Hmin].
  - discriminate.
  - intros [= <- <-]. apply match_at_some in E as (r & Hs & Hmin).
    exists [], r. split; [simpl; lia|]. split; [exact Hs|].
    split; [simpl; intros; lia | exact Hmin].
  - intros H. apply IH in H as (pre & post & -> & Hs & Hpre & Hmin).
    exists (c :: pre), post. split; [simpl; lia|].
    split; [rewrite <- app_comm_cons; f_equal; exact Hs|]. split; [|exact Hmin].
    intros [|k] Hk.
    + unfold fence_at. cbn [skipn]. now apply match_at_none.
    + unfold fence_at. cbn [skipn]. apply Hpre. simpl in Hk. lia.
Qed.

(** The search finds the first fenced block. *)
Lemma re_search_first (s pre body post : str) (pos : nat) :
  first_fence op s pre body post ->
  re_search op fence_close pos s = Some (pos + length pre, body).
Proof.
  intros (-> & Hpre & Hmin). revert pos Hpre.
  induction pre as [|c pre IH]; intros pos Hpre; rewrite re_search_eq.
  - cbn [app]. rewrite match_at_first by exact Hmin. simpl. now rewrite Nat.add_0_r.
  - destruct (match_at op fence_close _) as [b'|] eqn:E.
    + exfalso. apply match_at_some in E as (r & Hs & _).
      apply (Hpre 0); [simpl; lia|]. exists b', r. exact Hs.
    + cbn [app]. rewrite IH.
      * simpl. f_equal. f_equal. lia.
      * intros k Hk. apply (Hpre (S k)). simpl; lia.
Qed.

Lemma re_search_found (s : str) (pos : nat) :
  has_fence op s -> re_search op fence_close pos s <> None.
Proof.
  intros (pre & b & post & ->). revert pos.
  induction pre as [|c pre IH]; intros pos; rewrite re_search_eq;
    destruct (match_at op fence_close _) as [b'|] eqn:E; try discriminate.
  - exfalso. apply match_at_none in E. apply E. now exists b, post.
  - cbn [app]. apply IH.
Qed.

Lemma re_search_none (s : str) (pos : nat) :
  ~ has_fence op s -> re_search op fence_close pos s = None.
Proof.
  intros H. destruct (re_search op fence_close pos s) as [[n b]|] eqn:E;
    [|reflexivity].
  exfalso. apply re_search_sound in E as (pre & post & _ & -> & _).
  apply H. now exists pre, b, post.
Qed.

(** A text that holds a fenced block has a first one. *)
Lemma first_fence_exists (s : str) :
  has_fence op s -> exists pre body post, first_fence op s pre body post.
Proof.
  intros H. apply (@re_search_found s 0) in H.
  destruct (re_search op fence_close 0 s) as [[n b]|] eqn:E; [|contradiction].
  apply re_search_sound in E as (pre & post & _ & Hf).
  now exists pre, b, post.
Qed.

End FenceFacts.


(** ** Extraction at the first fenced block *)

Section ExtractFacts.

Lemma firstn_exact (a b : str) : firstn (length a) (a ++ b) = a.
Proof. induction a; simpl; [reflexivity | now f_equal]. Qed.

(** A literal that matches inside the first [length p] characters of a long
    enough text does not look at what follows. *)
Lemma startswith_long (p u x : str) :
  length p <= length u -> startswith p (u ++ x) = startswith p u.
Proof.
  revert u. induction p as [|a p IH]; intros u H; [reflexivity|].
  destruct u as [|b u]; simpl in H; [lia|].
  simpl. rewrite IH by lia. reflexivity.
Qed.

Lemma extract_first_html (s pre body post : str) :
  first_fence html_open s pre body post ->
  extract_code_from_response s = (strip pre, strip body).
Proof.
  intros H. unfold extract_code_from_response.
  rewrite (re_search_first 0 H). destruct H as (-> & _).
  cbn [Nat.add]. now rewrite firstn_exact.
Qed.

Lemma extract_first_generic (s pre body post : str) :
  ~ has_fence html_open s ->
  first_fence generic_open s pre body post ->
  extract_code_from_response s = (strip pre, strip body).
Proof.
  intros Hno H. unfold extract_code_from_response.
  rewrite (re_search_none 0 Hno), (re_search_first 0 H).
  destruct H as (-> & _). cbn [Nat.add]. now rewrite firstn_exact.
Qed.

Lemma extract_no_fence (s : str) :
  ~ has_fence html_open s -> ~ has_fence generic_open s ->
  extract_code_from_response s = (s, []).
Proof.
  intros H1 H2. unfold extract_code_from_response.
  now rewrite (re_search_none 0 H1), (re_search_none 0 H2).
Qed.

(** What follows the closing marker plays no part in where the first
    fenced block is. *)
Lemma first_fence_post (op pre body post post' : str) :
  op <> [] ->
  first_fence op (pre ++ op ++ body ++ fence_close ++ post) pre body post ->
  first_fence op (pre ++ op ++ body ++ fence_close ++ post') pre body post'.
Proof.
  intros Hop (_ & Hpre & Hmin). split; [reflexivity|]. split.
  - intros k Hk (b & r & Hf). apply (Hpre k Hk).
    unfold fence_at. rewrite skipn_app in Hf |- *.
    replace (k - length pre) with 0 in * by lia. cbn [skipn] in *.
    assert (Hd : length (skipn k pre) >= 1) by (rewrite length_skipn; lia).
    set (d := skipn k pre) in *.
    assert (Hs : startswith op (d ++ op) = true).
    { rewrite <- (startswith_long op (d ++ op) (body ++ fence_close ++ post')).
      - rewrite <- app_assoc, Hf. apply startswith_app.
      - rewrite length_app. lia. }
    apply startswith_iff in Hs as [t Ht].
    exists (t ++ body), post.
    rewrite (app_assoc d op), Ht, <- !app_assoc. reflexivity.
  - intros k Hk [r Ho]. apply (Hmin k Hk).
    apply startswith_occurs. rewrite skipn_app in Ho |- *.
    replace (k - length body) with 0 in * by lia. cbn [skipn] in *.
    assert (Hd : length (skipn k body) >= 1) by (rewrite length_skipn; lia).
    set (d := skipn k body) in *.
    rewrite (app_assoc d), startswith_long by (rewrite length_app; lia).
    rewrite <- (startswith_long fence_close (d ++ fence_close) post')
      by (rewrite length_app; lia).
    rewrite <- app_assoc, Ho. apply startswith_app.
Qed.

Lemma html_open_nonempty : html_open <> [].
Proof. discriminate. Qed.

(** The closing marker does not overlap itself: if it matches at the head
    of [d ++ fence_close ++ x] with [d] not empty, it matches inside [d]. *)
Lemma fence_close_unbordered (d x : str) :
  d <> [] ->
  startswith fence_close (d ++ fence_close ++ x) = true ->
  startswith fence_close d = true.
Proof.
  intros Hd H.
  destruct d as [|d1 [|d2 [|d3 [|d4 d]]]]; [contradiction| | | |exact H];
    apply startswith_iff in H as [r Hr]; cbv in Hr; congruence.
Qed.

(** The stripped body of a first fenced block, wrapped again, is its own
    first fenced block. *)
Lemma rewrap_first_fence (op s pre body post : str) :
  first_fence op s pre body post ->
  first_fence html_open (html_open ++ strip body ++ fence_close ++ [])
    [] (strip body) [].
Proof.
  intros (_ & _ & Hmin). split; [reflexivity|].
  split; [simpl; intros; lia|].
  intros k Hk Ho. apply startswith_occurs in Ho.
  destruct (strip_split body) as (w1 & w2 & Hb).
  rewrite skipn_app in Ho.
  replace (k - length (strip body)) with 0 in Ho by lia. cbn [skipn] in Ho.
  apply fence_close_unbordered in Ho.
  2:{ intros E. apply (f_equal (@length char)) in E.
      rewrite length_skipn in E. simpl in E. lia. }
  apply (Hmin (length w1 + k)).
  - apply (f_equal (@length char)) in Hb. rewrite !length_app in Hb. lia.
  - apply startswith_occurs. rewrite Hb at 1.
    rewrite <- !app_assoc, skipn_app, skipn_all2 by lia.
    replace (length w1 + k - length w1) with k by lia. cbn [app].
    rewrite skipn_app. now apply startswith_weaken.
Qed.

End ExtractFacts.

(** ** Texts without an opening marker *)

Section NoOpener.

(** An opening marker: three backticks, then [x1 :: x'] with [x1] not a
    backtick (the newline, or the [h] of the language marker). *)
Variable x1 : char.
Variable x' : str.
Hypothesis x1_not_backtick : x1 <> backtick.

Let op : str := backtick :: backtick :: backtick :: x1 :: x'.

Lemma absent_nil : absent op [].
Proof. intros k [r Hr]. rewrite skipn_nil in Hr. discriminate. Qed.

Lemma absent_cons (c : char) (s : str) :
  startswith op (c :: s) = false -> absent op s -> absent op (c :: s).
Proof.
  intros H Hs [|k].
  - rewrite <- startswith_occurs. cbn [skipn]. now rewrite H.
  - exact (Hs k).
Qed.

Lemma startswith_other (c : char) (s : str) :
  c <> backtick -> startswith op (c :: s) = false.
Proof.
  intros Hc. unfold op. cbn [startswith].
  destruct (N.eqb_spec backtick c) as [E|_]; [now symmetry in E | reflexivity].
Qed.

Lemma not_contains_tail (c : char) (a : str) :
  ~ contains ticks (c :: a) -> ~ contains ticks a.
Proof.
  intros H (u & v & ->). apply H. now exists (c :: u), v.
Qed.

(** A stretch without backticks holds no opening marker. *)
Lemma absent_plain (t rest : str) :
  ~ In backtick t -> absent op rest -> absent op (t ++ rest).
Proof.
  induction t as [|c t IH]; intros Ht Hr; [exact Hr|].
  cbn [app]. apply absent_cons.
  - apply startswith_other. intros ->. apply Ht. now left.
  - apply IH; [|exact Hr]. intros Hin. apply Ht. now right.
Qed.

(** A stretch without three backticks in a row holds no opening marker,
    provided none starts on its last one or two backticks. *)
Lemma absent_free (a rest : str) :
  ~ contains ticks a ->
  absent op rest ->
  startswith op (backtick :: rest) = false ->
  startswith op (backtick :: backtick :: rest) = false ->
  absent op (a ++ rest).
Proof.
  intros Ha Hr H1 H2. induction a as [|c a IH]; [exact Hr|].
  cbn [app]. apply absent_cons; [|apply IH; now apply not_contains_tail in Ha].
  destruct (N.eq_dec c backtick) as [->|Hc]; [|now apply startswith_other].
  destruct a as [|c2 a]; [exact H1|].
  destruct (N.eq_dec c2 backtick) as [->|Hc2].
  2:{ unfold op. cbn [app startswith]. rewrite N.eqb_refl. cbn [andb].
      destruct (N.eqb_spec backtick c2) as [E|_];
        [now symmetry in E | reflexivity]. }
  destruct a as [|c3 a]; [exact H2|].
  destruct (N.eq_dec c3 backtick) as [->|Hc3].
  - exfalso. apply Ha. now exists [], a.
  - unfold op. cbn [app startswith]. rewrite !N.eqb_refl. cbn [andb].
    destruct (N.eqb_spec backtick c3) as [E|_];
      [now symmetry in E | reflexivity].
Qed.

(** Prose, then one fenced block with a language marker [tag] that the
    opening marker does not match: the opening marker is nowhere. *)
Lemma absent_other_tag (prose tag body : str) :
  ~ contains ticks prose -> ~ contains ticks body ->
  tag <> [] -> ~ In backtick tag ->
  startswith (x1 :: x') (tag ++ [nl] ++ body ++ fence_close) = false ->
  absent op (prose ++ ticks ++ tag ++ [nl] ++ body ++ fence_close).
Proof.
  intros Hprose Hbody Htag Hbt Hx.
  assert (Hx1 : (x1 =? backtick)%N = false) by now apply N.eqb_neq.
  assert (Hclose : absent op (body ++ fence_close)).
  { apply absent_free; try assumption; try reflexivity.
    apply absent_cons; [reflexivity|].
    apply absent_cons; [reflexivity|].
    apply absent_cons; [reflexivity|].
    apply absent_cons; [reflexivity|]. apply absent_nil. }
  assert (Htail : absent op (tag ++ [nl] ++ body ++ fence_close)).
  { apply absent_plain; [assumption|].
    apply absent_cons; [reflexivity | exact Hclose]. }
  destruct tag as [|t1 tag]; [contradiction|].
  assert (Ht1 : (backtick =? t1)%N = false).
  { destruct (N.eqb_spec backtick t1) as [E|_]; [|reflexivity].
    exfalso. apply Hbt. now left. }
  apply absent_free; try assumption.
  - apply absent_cons.
    { unfold op. change ticks with [backtick; backtick; backtick].
      cbn [app startswith]. rewrite !N.eqb_refl. cbn [andb].
      cbn [app startswith] in Hx. exact Hx. }
    apply absent_cons.
    { unfold op. cbn [app startswith]. rewrite !N.eqb_refl, Ht1. reflexivity. }
    apply absent_cons.
    { unfold op. cbn [app startswith]. rewrite !N.eqb_refl, Ht1.
      now rewrite andb_false_r. }
    exact Htail.
  - unfold op. change ticks with [backtick; backtick; backtick].
    cbn [app startswith]. rewrite !N.eqb_refl, Hx1. reflexivity.
  - unfold op. change ticks with [backtick; backtick; backtick].
    cbn [app startswith]. rewrite !N.eqb_refl, Hx1. reflexivity.
Qed.

End NoOpener.

Lemma absent_no_fence (op s : str) : absent op s -> ~ has_fence op s.
Proof.
  intros H (pre & b & post & ->). apply (H (length pre)).
  exists (b ++ fence_close ++ post). now rewrite skipn_exact.
Qed.

(** ** The claims on [extract_code_from_response] *)

(** C2: a reply that holds a fenced block tagged html is cut at its first
    such block; the code is the stripped body of that block, the explanation
    the stripped text before its opening marker, and the text after the
    closing marker plays no part: replacing it changes neither component.
    The reply "Here you go\n```html\n<p>hi</p>\n```\nTrailing" gives
    explanation "Here you go" and code "<p>hi</p>". *)
Theorem extract_html_fence :
  (forall response : str,
      has_fence html_open response ->
      exists pre body post,
        first_fence html_open response pre body post
        /\ extract_code_from_response response = (strip pre, strip body)
        /\ forall post',
            extract_code_from_response
              (pre ++ html_open ++ body ++ fence_close ++ post')
            = (strip pre, strip body))
  /\ extract_code_from_response html_example
     = (py "Here you go", py "<p>hi</p>").
Proof.
  split; [|vm_compute; reflexivity].
  intros response H.
  destruct (first_fence_exists H) as (pre & body & post & Hf).
  exists pre, body, post. split; [exact Hf|].
  split; [exact (extract_first_html Hf)|].
  intros post'. apply (@extract_first_html _ pre body post').
  destruct Hf as (-> & Hf). apply (@first_fence_post _ _ _ post).
  - exact html_open_nonempty.
  - split; [reflexivity | exact Hf].
Qed.

Lemma extract_html_fence_witness :
  exists pre body post,
    first_fence html_open html_example pre body post
    /\ extract_code_from_response html_example = (strip pre, strip body)
    /\ forall post',
        extract_code_from_response
          (pre ++ html_open ++ body ++ fence_close ++ post')
        = (strip pre, strip body).
Proof.
  apply (proj1 extract_html_fence html_example).
  exists (py "Here you go" ++ [nl]), (py "<p>hi</p>"), ([nl] ++ py "Trailing").
  reflexivity.
Defined.

(** C7, as stated, fails: the reply " hi" holds no fenced block and comes
    back as explanation with its leading blank. *)
Lemma extract_plain_not_trimmed :
  ~ (forall response : str,
        ~ has_fence html_open response ->
        ~ has_fence generic_open response ->
        extract_code_from_response response = (strip response, [])).
Proof.
  intros H. specialize (H (py " hi")).
  assert (E : extract_code_from_response (py " hi") = (strip (py " hi"), [])).
  { apply H; intros Hf.
    - apply (@re_search_found html_open (py " hi") 0) in Hf.
      apply Hf. vm_compute. reflexivity.
    - apply (@re_search_found generic_open (py " hi") 0) in Hf.
      apply Hf. vm_compute. reflexivity. }
  vm_compute in E. discriminate E.
Qed.

(** C7, amended: a reply that holds no fenced block at all comes back
    unchanged, not trimmed, as the explanation, with empty code. *)
Theorem extract_plain_verbatim (response : str) :
  ~ has_fence html_open response ->
  ~ has_fence generic_open response ->
  extract_code_from_response response = (response, []).
Proof. apply extract_no_fence. Qed.

Lemma extract_plain_verbatim_witness :
  extract_code_from_response (py " hi ") = (py " hi ", []).
Proof.
  apply (@extract_plain_verbatim (py " hi ")); intros Hf.
  - apply (@re_search_found html_open (py " hi ") 0) in Hf.
    apply Hf. vm_compute. reflexivity.
  - apply (@re_search_found generic_open (py " hi ") 0) in Hf.
    apply Hf. vm_compute. reflexivity.
Defined.

(** C8: when the code [c] comes from a fenced block tagged html, extracting
    again from "```html\n" + c + "\n```" gives the code [c]. *)
Theorem extract_code_idempotent (response : str) :
  has_fence html_open response ->
  let c := snd (extract_code_from_response response) in
  snd (extract_code_from_response (html_open ++ c ++ fence_close)) = c.
Proof.
  intros H. cbv zeta.
  destruct (first_fence_exists H) as (pre & body & post & Hf).
  rewrite (extract_first_html Hf). cbn [snd].
  pose proof (rewrap_first_fence Hf) as Hw.
  rewrite app_nil_r in Hw at 1.
  rewrite (extract_first_html Hw). cbn [snd]. apply strip_idem.
Qed.

Lemma extract_code_idempotent_witness :
  let c := snd (extract_code_from_response html_example) in
  snd (extract_code_from_response (html_open ++ c ++ fence_close)) = c.
Proof.
  apply (@extract_code_idempotent html_example).
  exists (py "Here you go" ++ [nl]), (py "<p>hi</p>"), ([nl] ++ py "Trailing").
  reflexivity.
Defined.

Lemma html_marker_mismatch (tag rest : str) :
  tag <> py "html" -> ~ In nl tag ->
  startswith (104 :: 116 :: 109 :: 108 :: [nl])%N (tag ++ [nl] ++ rest)
  = false.
Proof.
  intros Htag Hnl. apply startswith_false. intros [r Hr].
  destruct tag as [|t1 [|t2 [|t3 [|t4 [|t5 tag]]]]];
    cbn [app] in Hr; unfold nl in *; try congruence.
  - apply Htag. injection Hr as -> -> -> -> _. reflexivity.
  - apply Hnl. injection Hr as _ _ _ _ -> _. simpl. auto 6.
Qed.

(** C10: prose followed by one fenced block whose opening marker carries a
    language marker other than html, with no other run of three backticks
    in the text, is handled as a reply without fenced block: the code is
    empty and the explanation is the whole raw text. So it is for
    "Some styles:\n```css\np { color: red }\n```". *)
Theorem other_tag_not_extracted :
  (forall prose tag body : str,
      ~ contains ticks prose -> ~ contains ticks body ->
      tag <> [] -> tag <> py "html" ->
      ~ In nl tag -> ~ In backtick tag ->
      let response := prose ++ ticks ++ tag ++ [nl] ++ body ++ fence_close in
      extract_code_from_response response = (response, []))
  /\ extract_code_from_response css_example = (css_example, []).
Proof.
  split; [|vm_compute; reflexivity].
  intros prose tag body Hprose Hbody Htag Hhtml Hnl Hbt response.
  apply extract_no_fence; apply absent_no_fence; subst response.
  - apply (@absent_other_tag 104%N (116 :: 109 :: 108 :: [nl])%N);
      try assumption; [discriminate|].
    now apply html_marker_mismatch.
  - apply (@absent_other_tag nl []); try assumption; [discriminate|].
    destruct tag as [|t1 tag]; [contradiction|].
    cbn [app startswith]. rewrite andb_true_r. apply N.eqb_neq.
    intros E. apply Hnl. left. now symmetry.
Qed.

Lemma no_ticks_in (s : str) :
  forallb (fun c => negb (c =? backtick)%N) s = true -> ~ contains ticks s.
Proof.
  intros H (a & b & ->). rewrite forallb_app in H.
  apply andb_true_iff in H as [_ H]. discriminate H.
Qed.

Lemma other_tag_not_extracted_witness :
  let response :=
    (py "Some styles:" ++ [nl]) ++ ticks ++ py "css" ++ [nl]
      ++ py "p { color: red }" ++ fence_close in
  extract_code_from_response response = (response, []).
Proof.
  apply (proj1 other_tag_not_extracted
           (py "Some styles:" ++ [nl]) (py "css") (py "p { color: red }")).
  - apply no_ticks_in. reflexivity.
  - apply no_ticks_in. reflexivity.
  - discriminate.
  - discriminate.
  - vm_compute. intuition discriminate.
  - vm_compute. intuition discriminate.
Defined.

(** ** The claims on the agent *)

Section AgentFacts.

Variable env : Env.
Variable user_request : str.

(** The message [add_message("user", user_request)] appends. *)
Let user_msg : Message :=
  {| role := py "user"; content := user_request; timestamp := now_user env |}.

(** The agent once the user's turn is recorded. *)
Let asked (a : AIWebAgent) : AIWebAgent :=
  {| api_key := api_key a;
     conversation_history := conversation_history a ++ [user_msg];
     generated_code := generated_code a;
     system_prompt := system_prompt a |}.

Lemma truthy_key (k : option str) :
  truthy k = true <-> exists key, k = Some key /\ key <> [].
Proof.
  destruct k as [[|c k]|]; simpl; split; try discriminate; try reflexivity.
  - intros (key & E & H). injection E as <-. contradiction.
  - intros _. exists (c :: k). split; [reflexivity | discriminate].
  - intros (key & H & _). discriminate.
Qed.

(** With a credential, the call records the user's turn and sends one
    request; what happens next is the handling of the endpoint's answer. *)
Lemma generate_website_asked (key : str) (w : World) :
  api_key (self w) = Some key -> key <> [] ->
  generate_website env user_request w =
  let w1 := {| self := asked (self w);
               trace := trace w
                        ++ [ApiCall key (outbound_messages (asked (self w)))] |} in
  match completion env key (outbound_messages (asked (self w))) with
  | Returned reply =>
      let '(expl, gen) := extract_code_from_response reply in
      (Returned {| code := gen; explanation := expl; error := [] |},
       {| self :=
            {| api_key := api_key (self w);
               conversation_history :=
                 (conversation_history (self w) ++ [user_msg])
                 ++ [{| role := py "assistant"; content := reply;
                        timestamp := now_assistant env |}];
               generated_code := gen;
               system_prompt := system_prompt (self w) |};
          trace := trace w1 |})
  | Raised e =>
      let error_msg := py "Error generating website: " ++ e in
      (Returned {| code := []; explanation := []; error := error_msg |},
       {| self := self w1; trace := trace w1 ++ [Stdout error_msg] |})
  end.
Proof.
  intros Hk Hne. destruct key as [|c key]; [contradiction|].
  destruct w as [[k h g sp] tr]. cbn [self api_key] in Hk. subst k.
  cbv [generate_website bind try_except add_message call_openai_api
       set_generated_code print emit set_self get_self ret truthy negb
       self trace api_key conversation_history generated_code system_prompt
       asked].
  destruct (completion env (c :: key) _) as [reply|e]; [|reflexivity].
  destruct (extract_code_from_response reply) as [expl gen]. reflexivity.
Qed.

End AgentFacts.

Lemma last_slice_snoc {A} (h : list A) (m : A) :
  last_slice 10 (h ++ [m]) = skipn (length h - 9) h ++ [m].
Proof.
  unfold last_slice. rewrite skipn_app, length_app. cbn [length].
  replace (length h + 1 - 10) with (length h - 9) by lia.
  replace (length h - 9 - length h) with 0 by lia. reflexivity.
Qed.

(** C1: with a credential and a completion call that returns [reply], the
    call appends two messages, the user's request and then the raw reply as
    assistant message, stores the extracted code (empty or not) as
    [generated_code], and returns the extracted code and explanation with
    an empty error. *)
Theorem generate_website_success
  (env : Env) (user_request reply key : str) (w : World) :
  let user_msg := {| role := py "user"; content := user_request;
                     timestamp := now_user env |} in
  let assistant_msg := {| role := py "assistant"; content := reply;
                          timestamp := now_assistant env |} in
  let asked := {| api_key := api_key (self w);
                  conversation_history :=
                    conversation_history (self w) ++ [user_msg];
                  generated_code := generated_code (self w);
                  system_prompt := system_prompt (self w) |} in
  api_key (self w) = Some key -> key <> [] ->
  completion env key (outbound_messages asked) = Returned reply ->
  exists w',
    generate_website env user_request w
    = (Returned {| code := snd (extract_code_from_response reply);
                   explanation := fst (extract_code_from_response reply);
                   error := [] |}, w')
    /\ conversation_history (self w')
       = conversation_history (self w) ++ [user_msg; assistant_msg]
    /\ generated_code (self w') = snd (extract_code_from_response reply)
    /\ api_key (self w') = api_key (self w).
Proof.
  intros user_msg assistant_msg asked Hk Hne Hc.
  rewrite (generate_website_asked env user_request w Hk Hne).
  cbv zeta. fold user_msg. fold asked. rewrite Hc.
  destruct (extract_code_from_response reply) as [expl gen].
  eexists. split; [reflexivity|]. cbn [self conversation_history
    generated_code api_key fst snd].
  rewrite <- app_assoc. repeat split.
Qed.

Lemma generate_website_success_witness :
  exists w',
    generate_website (demo_env (Returned html_example)) (py "a page")
      (demo_world (Some (py "sk-1")))
    = (Returned {| code := py "<p>hi</p>"; explanation := py "Here you go";
                   error := [] |}, w')
    /\ conversation_history (self w')
       = [ {| role := py "user"; content := py "a page"; timestamp := 1%N |};
           {| role := py "assistant"; content := html_example;
              timestamp := 2%N |} ]
    /\ generated_code (self w') = py "<p>hi</p>"
    /\ api_key (self w') = Some (py "sk-1").
Proof.
  apply (@generate_website_success (demo_env (Returned html_example))
           (py "a page") html_example (py "sk-1")
           (demo_world (Some (py "sk-1")))).
  - reflexivity.
  - discriminate.
  - reflexivity.
Defined.

(** C3: without a credential ([None] or the empty string) the call returns
    a result with a non-empty error and empty code and explanation, and the
    agent, its history included, is as before; nothing is sent or printed. *)
Theorem generate_website_no_credential
  (env : Env) (user_request : str) (w : World) :
  truthy (api_key (self w)) = false ->
  exists r,
    generate_website env user_request w = (Returned r, w)
    /\ code r = [] /\ explanation r = []
    /\ error r = py "API key not set. Please set your OpenAI API key."
    /\ error r <> [].
Proof.
  intros H. cbv [generate_website bind get_self ret]. rewrite H. cbn [negb].
  eexists. split; [reflexivity|]. cbn [code explanation error].
  repeat split. discriminate.
Qed.

Lemma generate_website_no_credential_witness :
  exists r,
    generate_website (demo_env (Returned html_example)) (py "a page")
      (demo_world None)
    = (Returned r, demo_world None)
    /\ code r = [] /\ explanation r = []
    /\ error r = py "API key not set. Please set your OpenAI API key."
    /\ error r <> [].
Proof.
  apply (@generate_website_no_credential (demo_env (Returned html_example))
           (py "a page") (demo_world None)).
  reflexivity.
Defined.

(** C4: with a credential and a completion call that fails with [e], the
    failure is caught: the result has empty code and explanation and the
    non-empty error "Error generating website: " + str(e); the history has
    grown by the user's request alone, and no assistant message follows. *)
Theorem generate_website_failure
  (env : Env) (user_request e key : str) (w : World) :
  let user_msg := {| role := py "user"; content := user_request;
                     timestamp := now_user env |} in
  let asked := {| api_key := api_key (self w);
                  conversation_history :=
                    conversation_history (self w) ++ [user_msg];
                  generated_code := generated_code (self w);
                  system_prompt := system_prompt (self w) |} in
  api_key (self w) = Some key -> key <> [] ->
  completion env key (outbound_messages asked) = Raised e ->
  exists w',
    generate_website env user_request w
    = (Returned {| code := []; explanation := [];
                   error := py "Error generating website: " ++ e |}, w')
    /\ py "Error generating website: " ++ e <> []
    /\ conversation_history (self w')
       = conversation_history (self w) ++ [user_msg]
    /\ length (conversation_history (self w'))
       = length (conversation_history (self w)) + 1
    /\ generated_code (self w') = generated_code (self w).
Proof.
  intros user_msg asked Hk Hne Hc.
  rewrite (generate_website_asked env user_request w Hk Hne).
  cbv zeta. fold user_msg. fold asked. rewrite Hc.
  eexists. split; [reflexivity|]. cbn [self conversation_history
    generated_code api_key asked].
  rewrite length_app. repeat split. discriminate.
Qed.

Lemma generate_website_failure_witness :
  exists w',
    generate_website (demo_env (Raised (py "timed out"))) (py "a page")
      (demo_world (Some (py "sk-1")))
    = (Returned {| code := []; explanation := [];
                   error := py "Error generating website: timed out" |}, w')
    /\ py "Error generating website: " ++ py "timed out" <> []
    /\ conversation_history (self w')
       = [ {| role := py "user"; content := py "a page"; timestamp := 1%N |} ]
    /\ length (conversation_history (self w')) = 1
    /\ generated_code (self w') = [].
Proof.
  apply (@generate_website_failure (demo_env (Raised (py "timed out")))
           (py "a page") (py "timed out") (py "sk-1")
           (demo_world (Some (py "sk-1")))).
  - reflexivity.
  - discriminate.
  - reflexivity.
Defined.

(** C5: with a credential, the request sent is the system instruction
    followed by the last [min N 10] messages of the history in their order,
    [N] counting the user's request just appended, and that request is the
    last element of the list. *)
Theorem outbound_window
  (env : Env) (user_request key : str) (w : World) :
  let user_msg := {| role := py "user"; content := user_request;
                     timestamp := now_user env |} in
  let history := conversation_history (self w) ++ [user_msg] in
  let N := length history in
  let to_api := fun msg : Message =>
                  {| msg_role := role msg; msg_content := content msg |} in
  let system_msg := {| msg_role := py "system";
                       msg_content := system_prompt (self w) |} in
  let sent := system_msg :: map to_api (skipn (N - Nat.min N 10) history) in
  api_key (self w) = Some key -> key <> [] ->
  (exists rest,
      trace (snd (generate_website env user_request w))
      = trace w ++ ApiCall key sent :: rest)
  /\ length sent = 1 + Nat.min N 10
  /\ exists earlier,
      sent = system_msg :: earlier
             ++ [{| msg_role := py "user"; msg_content := user_request |}].
Proof.
  intros user_msg history N to_api system_msg sent Hk Hne.
  assert (Hsent : sent = outbound_messages
                           {| api_key := api_key (self w);
                              conversation_history := history;
                              generated_code := generated_code (self w);
                              system_prompt := system_prompt (self w) |}).
  { unfold sent, outbound_messages, last_slice.
    cbn [system_prompt conversation_history]. fold N.
    replace (N - Nat.min N 10) with (N - 10) by lia. reflexivity. }
  split; [|split].
  - rewrite (generate_website_asked env user_request w Hk Hne).
    cbv zeta. fold user_msg. fold history. rewrite <- Hsent.
    destruct (completion env key sent) as [reply|e].
    + destruct (extract_code_from_response reply) as [expl gen].
      cbn [snd trace]. now exists [].
    + cbn [snd trace]. rewrite <- app_assoc. now eexists.
  - unfold sent. cbn [length]. rewrite length_map, length_skipn. lia.
  - rewrite Hsent. unfold outbound_messages, history.
    cbn [system_prompt conversation_history]. rewrite last_slice_snoc, map_app.
    now eexists.
Qed.

Lemma outbound_window_witness :
  (exists rest,
      trace (snd (generate_website (demo_env (Returned html_example))
                    (py "a page") (demo_world (Some (py "sk-1")))))
      = [] ++ ApiCall (py "sk-1")
                [ {| msg_role := py "system"; msg_content := SYSTEM_PROMPT |};
                  {| msg_role := py "user"; msg_content := py "a page" |} ]
              :: rest)
  /\ length [ {| msg_role := py "system"; msg_content := SYSTEM_PROMPT |};
              {| msg_role := py "user"; msg_content := py "a page" |} ]
     = 1 + Nat.min 1 10
  /\ exists earlier,
      [ {| msg_role := py "system"; msg_content := SYSTEM_PROMPT |};
        {| msg_role := py "user"; msg_content := py "a page" |} ]
      = {| msg_role := py "system"; msg_content := SYSTEM_PROMPT |}
        :: earlier
        ++ [{| msg_role := py "user"; msg_content := py "a page" |}].
Proof.
  apply (@outbound_window (demo_env (Returned html_example))
           (py "a page") (py "sk-1") (demo_world (Some (py "sk-1")))).
  - reflexivity.
  - discriminate.
Defined.

(** C9: [clear_history] always returns; afterwards the history is empty,
    so that every slice [history[-k:]] of it is empty, and [generated_code]
    is the empty string. The credential stays. *)
Theorem clear_history_empties (w : World) :
  exists w',
    clear_history w = (Returned tt, w')
    /\ conversation_history (self w') = []
    /\ (forall k, last_slice k (conversation_history (self w')) = [])
    /\ generated_code (self w') = []
    /\ api_key (self w') = api_key (self w).
Proof.
  eexists. split; [reflexivity|].
  cbn [self conversation_history generated_code api_key].
  repeat split. intros [|k]; reflexivity.
Qed.

(** ** Further properties of [extract_code_from_response] *)

Section ExtractMore.

(** A body that does not hold the closing marker is closed by the first
    marker after it. *)
Lemma closer_first (c post : str) :
  ~ contains fence_close c ->
  forall k, k < length c ->
            ~ occurs_at fence_close (c ++ fence_close ++ post) k.
Proof.
  intros Hc k Hk Ho. apply startswith_occurs in Ho.
  rewrite skipn_app in Ho. replace (k - length c) with 0 in Ho by lia.
  cbn [skipn] in Ho. apply fence_close_unbordered in Ho.
  - apply startswith_iff in Ho as [r Hr]. apply Hc.
    exists (firstn k c), r. rewrite <- Hr. symmetry. apply firstn_skipn.
  - intros E. apply (f_equal (@length char)) in E.
    rewrite length_skipn in E. simpl in E. lia.
Qed.

(** The body of a first fenced block does not hold the closing marker. *)
Lemma first_fence_body (op s pre body post : str) :
  first_fence op s pre body post -> ~ contains fence_close body.
Proof.
  intros (_ & _ & Hmin) (a & b & E). apply (Hmin (length a)).
  - apply (f_equal (@length char)) in E. rewrite !length_app in E.
    change (length fence_close) with 4 in E. lia.
  - rewrite E. exists (b ++ fence_close ++ post).
    rewrite <- !app_assoc. now rewrite skipn_exact.
Qed.

(** The three ways [extract_code_from_response] answers. *)
Lemma extract_cases (s : str) :
  (exists pre body post,
      first_fence html_open s pre body post
      /\ extract_code_from_response s = (strip pre, strip body))
  \/ (exists pre body post,
         first_fence generic_open s pre body post
         /\ extract_code_from_response s = (strip pre, strip body))
  \/ (~ has_fence html_open s /\ ~ has_fence generic_open s
      /\ extract_code_from_response s = (s, [])).
Proof.
  destruct (re_search html_open fence_close 0 s) as [[n b]|] eqn:E1.
  { left. apply re_search_sound in E1 as (pre & post & _ & Hf).
    exists pre, b, post. split; [exact Hf | exact (extract_first_html Hf)]. }
  assert (H1 : ~ has_fence html_open s).
  { intros H. now apply (@re_search_found html_open s 0) in H. }
  destruct (re_search generic_open fence_close 0 s) as [[n b]|] eqn:E2.
  { right; left. apply re_search_sound in E2 as (pre & post & _ & Hf).
    exists pre, b, post. split; [exact Hf|].
    exact (extract_first_generic H1 Hf). }
  assert (H2 : ~ has_fence generic_open s).
  { intros H. now apply (@re_search_found generic_open s 0) in H. }
  right; right. split; [exact H1|]. split; [exact H2|].
  now apply extract_no_fence.
Qed.

Lemma contains_strip (c x : str) : contains c (strip x) -> contains c x.
Proof.
  intros (a & b & E). destruct (strip_split x) as (w1 & w2 & Hx).
  exists (w1 ++ a), (b ++ w2). rewrite Hx at 1. rewrite E.
  now rewrite <- !app_assoc.
Qed.

Lemma length_strip (x : str) : length (strip x) <= length x.
Proof.
  destruct (strip_split x) as (w1 & w2 & Hx).
  apply (f_equal (@length char)) in Hx. rewrite !length_app in Hx. lia.
Qed.

End ExtractMore.

(** X2: whatever the reply, the code returned has no blank at either end
    and does not hold the closing marker. *)
Theorem extract_code_clean (response : str) :
  let c := snd (extract_code_from_response response) in
  strip c = c /\ ~ contains fence_close c.
Proof.
  cbv zeta.
  destruct (extract_cases response)
    as [(pre & body & post & Hf & ->)|[(pre & body & post & Hf & ->)
                                      |(_ & _ & ->)]]; cbn [snd].
  - split; [apply strip_idem|]. intros H. apply contains_strip in H.
    exact (first_fence_body Hf H).
  - split; [apply strip_idem|]. intros H. apply contains_strip in H.
    exact (first_fence_body Hf H).
  - split; [reflexivity|]. intros (a & b & E).
    destruct a; discriminate E.
Qed.

(** X3: explanation and code are two pieces of the reply, one after the
    other: the reply reads [a ++ explanation ++ b ++ code ++ c]; together
    they are no longer than the reply. *)
Theorem extract_pieces (response : str) :
  let e := fst (extract_code_from_response response) in
  let c := snd (extract_code_from_response response) in
  (exists a b d, response = a ++ e ++ b ++ c ++ d)
  /\ length e + length c <= length response.
Proof.
  cbv zeta.
  assert (Hfence : forall op pre body post,
             first_fence op response pre body post ->
             (exists a b d,
                 response = a ++ strip pre ++ b ++ strip body ++ d)
             /\ length (strip pre) + length (strip body)
                <= length response).
  { intros op pre body post (E & _). split.
    - destruct (strip_split pre) as (p1 & p2 & Hp).
      destruct (strip_split body) as (b1 & b2 & Hb).
      exists p1, (p2 ++ op ++ b1), (b2 ++ fence_close ++ post).
      rewrite E. rewrite Hp at 1. rewrite Hb at 1.
      now rewrite <- !app_assoc.
    - pose proof (length_strip pre). pose proof (length_strip body).
      apply (f_equal (@length char)) in E. rewrite !length_app in E. lia. }
  destruct (extract_cases response)
    as [(pre & body & post & Hf & ->)|[(pre & body & post & Hf & ->)
                                      |(_ & _ & ->)]]; cbn [fst snd].
  - exact (Hfence _ _ _ _ Hf).
  - exact (Hfence _ _ _ _ Hf).
  - split; [|simpl; lia]. exists [], [], []. now rewrite !app_nil_r.
Qed.

Lemma absent_html_prefix (pre : str) :
  ~ contains ticks pre -> absent html_open (pre ++ py "```html").
Proof.
  intros H.
  apply (@absent_free 104%N (116 :: 109 :: 108 :: [nl])%N).
  - exact H.
  - change (py "```html") with [96; 96; 96; 104; 116; 109; 108]%N.
    repeat (apply absent_cons; [reflexivity|]). apply absent_nil.
  - reflexivity.
  - reflexivity.
Qed.

(** X4: a reply written the way the system prompt asks, some text without
    three backticks in a row, then "```html\n", the code, "\n```" and
    anything after, is read back into its parts whenever the code does not
    hold the closing marker: the explanation is the stripped text, the code
    is the stripped code. *)
Theorem extract_formatted (pre c post : str) :
  ~ contains ticks pre ->
  ~ contains fence_close c ->
  extract_code_from_response (pre ++ html_open ++ c ++ fence_close ++ post)
  = (strip pre, strip c).
Proof.
  intros Hpre Hc. apply (@extract_first_html _ pre c post).
  split; [reflexivity|]. split; [|now apply closer_first].
  intros k Hk (b & r & Hf).
  apply (absent_html_prefix Hpre (k := k)).
  apply startswith_occurs.
  assert (Hs : startswith html_open
                 (skipn k (pre ++ html_open ++ c ++ fence_close ++ post))
               = true).
  { apply startswith_iff. now exists (b ++ fence_close ++ r). }
  change html_open with (py "```html" ++ [nl]) in Hs at 2.
  rewrite <- app_assoc, (app_assoc pre), skipn_app in Hs.
  assert (Hl : length (pre ++ py "```html") = length pre + 7)
    by (rewrite length_app; reflexivity).
  replace (k - length (pre ++ py "```html")) with 0 in Hs by lia.
  cbn [skipn] in Hs. rewrite startswith_long in Hs; [exact Hs|].
  rewrite length_skipn, Hl. change (length html_open) with 8. lia.
Qed.

Lemma extract_formatted_witness :
  extract_code_from_response
    ((py "Here you go" ++ [nl]) ++ html_open ++ py "<p>hi</p>"
       ++ fence_close ++ ([nl] ++ py "Trailing"))
  = (strip (py "Here you go" ++ [nl]), strip (py "<p>hi</p>")).
Proof.
  apply (@extract_formatted (py "Here you go" ++ [nl]) (py "<p>hi</p>")
           ([nl] ++ py "Trailing")).
  - apply no_ticks_in. reflexivity.
  - intros H. apply lazy_body_found in H. apply H. vm_compute. reflexivity.
Defined.

(** An occurrence that ends inside [u] is an occurrence in [u]. *)
Lemma occurs_in_prefix (op u x : str) (k : nat) :
  length op + k <= length u ->
  occurs_at op (u ++ x) k -> occurs_at op u k.
Proof.
  intros Hl Ho. apply startswith_occurs in Ho. apply startswith_occurs.
  rewrite skipn_app in Ho. replace (k - length u) with 0 in Ho by lia.
  cbn [skipn] in Ho. rewrite startswith_long in Ho; [exact Ho|].
  rewrite length_skipn. lia.
Qed.

(** No block without a closing marker: when the opening marker does not
    occur so early that it ends before the end of [p], and no closing marker
    occurs in [rest], the text [p ++ rest] holds no fenced block. *)
Lemma unclosed_tail (op p rest : str) :
  ~ contains fence_close rest ->
  (forall k, k + length op < length p -> ~ occurs_at op (p ++ rest) k) ->
  ~ has_fence op (p ++ rest).
Proof.
  intros Hrest Hp (a & b & c & E).
  destruct (Nat.lt_ge_cases (length a + length op) (length p)) as [Hlt|Hge].
  - apply (Hp (length a) Hlt). rewrite E.
    exists (b ++ fence_close ++ c). now rewrite skipn_exact.
  - apply Hrest. exists (skipn (length p) (a ++ op ++ b)), c.
    rewrite <- (skipn_exact p rest), E.
    rewrite (app_assoc a), (app_assoc (a ++ op)), <- (app_assoc a).
    rewrite skipn_app.
    replace (length p - length (a ++ op ++ b)) with 0
      by (rewrite !length_app; lia).
    reflexivity.
Qed.

Lemma absent_generic_ticks (pre : str) :
  ~ contains ticks pre -> absent generic_open (pre ++ py "```").
Proof.
  intros H. apply (@absent_free nl []).
  - exact H.
  - change (py "```") with [96; 96; 96]%N.
    repeat (apply absent_cons; [reflexivity|]). apply absent_nil.
  - reflexivity.
  - reflexivity.
Qed.

Lemma absent_generic_html (pre : str) :
  ~ contains ticks pre -> absent generic_open (pre ++ py "```html").
Proof.
  intros H. apply (@absent_free nl []).
  - exact H.
  - change (py "```html") with [96; 96; 96; 104; 116; 109; 108]%N.
    repeat (apply absent_cons; [reflexivity|]). apply absent_nil.
  - reflexivity.
  - reflexivity.
Qed.

(** X1: a reply cut off inside its html block gives no code. When the
    text before "```html\n" has no three backticks in a row and no newline
    followed by three backticks occurs after it, the whole reply comes back
    as the explanation, not stripped, and the code is empty. *)
Theorem extract_cut_off (pre rest : str) :
  ~ contains ticks pre ->
  ~ contains fence_close rest ->
  extract_code_from_response (pre ++ html_open ++ rest)
  = (pre ++ html_open ++ rest, []).
Proof.
  intros Hpre Hrest.
  assert (Hcut : pre ++ html_open ++ rest
                 = (pre ++ py "```html") ++ [nl] ++ rest).
  { change html_open with (py "```html" ++ [nl]).
    now rewrite <- !app_assoc. }
  apply extract_no_fence; rewrite app_assoc;
    apply unclosed_tail; try exact Hrest;
    intros k Hk Ho; rewrite length_app in Hk;
    change (length html_open) with 8 in Hk;
    rewrite <- app_assoc, Hcut in Ho;
    apply occurs_in_prefix in Ho.
  - exact (absent_html_prefix Hpre Ho).
  - rewrite length_app. change (length (py "```html")) with 7.
    change (length html_open) with 8. lia.
  - exact (absent_generic_html Hpre Ho).
  - rewrite length_app. change (length (py "```html")) with 7.
    change (length generic_open) with 4 in *. lia.
Qed.

Lemma extract_cut_off_witness :
  extract_code_from_response
    ((py "Here you go" ++ [nl]) ++ html_open ++ py "<p>cut off")
  = ((py "Here you go" ++ [nl]) ++ html_open ++ py "<p>cut off", []).
Proof.
  apply (@extract_cut_off (py "Here you go" ++ [nl]) (py "<p>cut off")).
  - apply no_ticks_in. reflexivity.
  - intros H. apply lazy_body_found in H. apply H. vm_compute. reflexivity.
Defined.

(** C6, as stated, fails. In the reply
    "```css\nbody{}\n```\nAnd here is the page:\n```\n<p>x</p>\n```" no
    fenced block is tagged html and the last block has no language marker,
    yet the code returned is the sentence between the two blocks and the
    explanation is the head of the css block: the search for three
    backticks and a newline stops at the closing marker of the css block. *)
Lemma extract_untagged_after_tagged :
  let pre := py "```css" ++ [nl] ++ py "body{}" ++ [nl] ++ py "```" ++ [nl]
             ++ py "And here is the page:" ++ [nl] in
  css_then_untagged_example
  = pre ++ generic_open ++ py "<p>x</p>" ++ fence_close
  /\ ~ has_fence html_open css_then_untagged_example
  /\ extract_code_from_response css_then_untagged_example
     = (py "```css" ++ [nl] ++ py "body{}", py "And here is the page:")
  /\ extract_code_from_response css_then_untagged_example
     <> (strip pre, py "<p>x</p>").
Proof.
  cbv zeta. split; [reflexivity|]. split.
  - intros H. apply (@re_search_found html_open css_then_untagged_example 0)
      in H. apply H. vm_compute. reflexivity.
  - split; [vm_compute; reflexivity|]. vm_compute. discriminate.
Qed.

(** C6, amended: in a reply with no fenced block tagged html whose first
    three backticks in a row open a fenced block without language marker,
    that block is cut out by the same rule: its body, up to the first
    closing marker, stripped, is the code, and the text before its opening
    marker, stripped, is the explanation. The reply "```\n<p>x</p>\n```"
    gives an empty explanation and code "<p>x</p>". *)
Theorem extract_untagged_first (pre body post : str) :
  (~ contains ticks pre ->
   ~ contains fence_close body ->
   ~ has_fence html_open
       (pre ++ generic_open ++ body ++ fence_close ++ post) ->
   extract_code_from_response
     (pre ++ generic_open ++ body ++ fence_close ++ post)
   = (strip pre, strip body))
  /\ extract_code_from_response untagged_example = ([], py "<p>x</p>").
Proof.
  split; [|vm_compute; reflexivity].
  intros Hpre Hbody Hno.
  apply (@extract_first_generic _ pre body post Hno).
  split; [reflexivity|]. split; [|now apply closer_first].
  intros k Hk (b & r & Hf).
  assert (Ho : occurs_at generic_open
                 ((pre ++ py "```")
                  ++ [nl] ++ body ++ fence_close ++ post) k).
  { exists (b ++ fence_close ++ r). rewrite <- Hf.
    change generic_open with (py "```" ++ [nl]).
    now rewrite <- !app_assoc. }
  apply occurs_in_prefix in Ho.
  - exact (absent_generic_ticks Hpre Ho).
  - rewrite length_app. change (length (py "```")) with 3.
    change (length generic_open) with 4. lia.
Qed.

Lemma extract_untagged_first_witness :
  extract_code_from_response
    ((py "Here it is:" ++ [nl]) ++ generic_open ++ py "<p>x</p>"
       ++ fence_close ++ ([nl] ++ py "Enjoy."))
  = (strip (py "Here it is:" ++ [nl]), strip (py "<p>x</p>")).
Proof.
  apply (proj1 (extract_untagged_first (py "Here it is:" ++ [nl])
                  (py "<p>x</p>") ([nl] ++ py "Enjoy."))).
  - apply no_ticks_in. reflexivity.
  - intros H. apply lazy_body_found in H. apply H. vm_compute. reflexivity.
  - intros H.
    apply (@re_search_found html_open
             ((py "Here it is:" ++ [nl]) ++ generic_open ++ py "<p>x</p>"
                ++ fence_close ++ ([nl] ++ py "Enjoy.")) 0) in H.
    apply H. vm_compute. reflexivity.
Defined.

(** ** Further properties of [generate_website] *)

Section RunFacts.

Variable env : Env.
Variable user_request : str.

(** The whole of [generate_website], by credential and by the answer of
    the endpoint. *)
Lemma generate_website_run (w : World) :
  generate_website env user_request w =
  if truthy (api_key (self w)) then
    let sent := outbound_messages (asked_agent env user_request (self w)) in
    let call := ApiCall (credential (self w)) sent in
    match completion env (credential (self w)) sent with
    | Returned reply =>
        (Returned {| code := snd (extract_code_from_response reply);
                     explanation := fst (extract_code_from_response reply);
                     error := [] |},
         {| self := answered_agent env user_request reply (self w);
            trace := trace w ++ [call] |})
    | Raised e =>
        (Returned {| code := []; explanation := [];
                     error := py "Error generating website: " ++ e |},
         {| self := asked_agent env user_request (self w);
            trace := (trace w ++ [call])
                     ++ [Stdout (py "Error generating website: " ++ e)] |})
    end
  else
    (Returned {| code := []; explanation := [];
                 error :=
                   py "API key not set. Please set your OpenAI API key." |},
     w).
Proof.
  destruct w as [[k h g sp] tr]. destruct k as [[|c k]|].
  - reflexivity.
  - cbv [generate_website bind try_except add_message call_openai_api
         set_generated_code print emit set_self get_self ret truthy negb
         self trace api_key conversation_history generated_code
         system_prompt asked_agent answered_agent credential user_turn
         assistant_turn].
    destruct (completion env (c :: k) _) as [reply|e]; [|reflexivity].
    destruct (extract_code_from_response reply) as [expl gen]. reflexivity.
  - reflexivity.
Qed.

End RunFacts.

(** X5: [generate_website] never leaves with an exception, whatever the
    endpoint does. The history only grows, by at most two messages; the
    credential and the system prompt stay; the trace only grows. *)
Theorem generate_website_total (env : Env) (user_request : str) (w : World) :
  exists r w',
    generate_website env user_request w = (Returned r, w')
    /\ (exists added,
           conversation_history (self w')
           = conversation_history (self w) ++ added
           /\ length added <= 2)
    /\ api_key (self w') = api_key (self w)
    /\ system_prompt (self w') = system_prompt (self w)
    /\ exists events, trace w' = trace w ++ events.
Proof.
  rewrite generate_website_run.
  destruct (truthy (api_key (self w))).
  - cbv zeta. destruct (completion env _ _) as [reply|e];
      eexists; eexists; (split; [reflexivity|]);
      cbn [self trace conversation_history api_key system_prompt
           asked_agent answered_agent].
    + split; [|split; [reflexivity|split; [reflexivity|now eexists]]].
      eexists. rewrite <- app_assoc. split; [reflexivity | simpl; lia].
    + split; [|split; [reflexivity|split; [reflexivity|]]].
      * eexists. split; [reflexivity | simpl; lia].
      * eexists. rewrite <- app_assoc. reflexivity.
  - eexists; eexists. split; [reflexivity|].
    split; [|split; [reflexivity|split; [reflexivity|]]].
    + exists []. rewrite app_nil_r. split; [reflexivity | simpl; lia].
    + exists []. now rewrite app_nil_r.
Qed.

(** X6: the error field tells what the call did. With an error, code and
    explanation are empty, [generated_code] is the one from before, and no
    assistant message was added. Without, [generated_code] is the code
    returned and the history has two messages more. *)
Theorem generate_website_error_field
  (env : Env) (user_request : str) (w : World) :
  exists r w',
    generate_website env user_request w = (Returned r, w')
    /\ (error r <> [] ->
        code r = [] /\ explanation r = []
        /\ generated_code (self w') = generated_code (self w)
        /\ length (conversation_history (self w'))
           <= length (conversation_history (self w)) + 1
        /\ Forall (fun m => In m (conversation_history (self w))
                            \/ role m = py "user")
             (conversation_history (self w')))
    /\ (error r = [] ->
        generated_code (self w') = code r
        /\ length (conversation_history (self w'))
           = length (conversation_history (self w)) + 2).
Proof.
  rewrite generate_website_run.
  destruct (truthy (api_key (self w))).
  - cbv zeta. destruct (completion env _ _) as [reply|e];
      eexists; eexists; (split; [reflexivity|]);
      cbn [self conversation_history generated_code code explanation error
           asked_agent answered_agent]; split; intros H.
    + contradiction.
    + split; [reflexivity|]. rewrite !length_app. simpl. lia.
    + repeat split; try reflexivity.
      * rewrite length_app. simpl. lia.
      * apply Forall_app. split.
        -- apply Forall_forall. intros m Hm. now left.
        -- constructor; [now right | constructor].
    + discriminate H.
  - eexists; eexists. split; [reflexivity|].
    cbn [code explanation error]. split; intros H.
    + repeat split; try reflexivity; [lia|].
      apply Forall_forall. intros m Hm. now left.
    + discriminate H.
Qed.

(** X7: one run of [generate_website] calls [_call_openai_api] once when a
    credential is set and not at all otherwise; after a failure the call is
    not made again. *)
Theorem generate_website_one_call
  (env : Env) (user_request : str) (w : World) :
  exists events,
    trace (snd (generate_website env user_request w)) = trace w ++ events
    /\ length (filter is_api_call events)
       = if truthy (api_key (self w)) then 1 else 0.
Proof.
  rewrite generate_website_run.
  destruct (truthy (api_key (self w))).
  - cbv zeta. destruct (completion env _ _) as [reply|e]; cbn [snd trace].
    + eexists. split; reflexivity.
    + eexists. rewrite <- app_assoc. split; reflexivity.
  - exists []. cbn [snd]. now rewrite app_nil_r.
Qed.

(** X8: a history whose messages all carry the role user or assistant
    stays so through [generate_website]. *)
Theorem generate_website_roles (env : Env) (user_request : str) (w : World) :
  Forall known_role (conversation_history (self w)) ->
  Forall known_role
    (conversation_history (self (snd (generate_website env user_request w)))).
Proof.
  intros H. rewrite generate_website_run.
  destruct (truthy (api_key (self w))); [|exact H].
  cbv zeta. destruct (completion env _ _) as [reply|e];
    cbn [snd self conversation_history asked_agent answered_agent];
    repeat (apply Forall_app; split); try exact H;
    (constructor; [(now left) || (now right) | constructor]).
Qed.

Lemma generate_website_roles_witness :
  Forall known_role
    (conversation_history
       (self (snd (generate_website (demo_env (Returned html_example))
                     (py "a page") (demo_world (Some (py "sk-1"))))))).
Proof.
  apply (@generate_website_roles (demo_env (Returned html_example))
           (py "a page") (demo_world (Some (py "sk-1")))).
  constructor.
Defined.

Lemma outbound_asked (env : Env) (user_request : str) (a : AIWebAgent) :
  outbound_messages (asked_agent env user_request a)
  = {| msg_role := py "system"; msg_content := system_prompt a |}
    :: map (fun msg => {| msg_role := role msg; msg_content := content msg |})
         (skipn (length (conversation_history a) - 9)
            (conversation_history a))
    ++ [{| msg_role := py "user"; msg_content := user_request |}].
Proof.
  unfold outbound_messages, asked_agent.
  cbn [system_prompt conversation_history].
  now rewrite last_slice_snoc, map_app.
Qed.

Lemma skipn_keep_tail {A} (n : nat) (h t : list A) :
  n <= length h -> skipn n (h ++ t) = skipn n h ++ t.
Proof.
  intros H. rewrite skipn_app. replace (n - length h) with 0 by lia.
  reflexivity.
Qed.

(** X9: the context carries over. After a call that succeeded with
    [reply1], the request of the next call ends with the first user
    request, the raw first reply as assistant message, and the new user
    request, in this order, after the system message and at most seven
    older messages. *)
Theorem second_request_after_success
  (env1 env2 : Env) (request1 request2 reply1 key : str) (w : World) :
  api_key (self w) = Some key -> key <> [] ->
  completion env1 key
    (outbound_messages (asked_agent env1 request1 (self w)))
  = Returned reply1 ->
  let w1 := snd (generate_website env1 request1 w) in
  exists older rest,
    trace (snd (generate_website env2 request2 w1))
    = trace w1
      ++ ApiCall key
           ({| msg_role := py "system";
               msg_content := system_prompt (self w) |}
            :: older
            ++ [ {| msg_role := py "user"; msg_content := request1 |};
                 {| msg_role := py "assistant"; msg_content := reply1 |};
                 {| msg_role := py "user"; msg_content := request2 |} ])
      :: rest
    /\ length older <= 7.
Proof.
  intros Hk Hne Hc w1.
  assert (Ht : truthy (api_key (self w)) = true)
    by (apply truthy_key; now exists key).
  assert (Hcred : credential (self w) = key)
    by (unfold credential; now rewrite Hk).
  assert (Hw1 : snd (generate_website env1 request1 w)
                = {| self := answered_agent env1 request1 reply1 (self w);
                     trace := trace w
                              ++ [ApiCall key
                                    (outbound_messages
                                       (asked_agent env1 request1
                                          (self w)))] |}).
  { rewrite generate_website_run, Ht. cbv zeta.
    rewrite Hcred, Hc. reflexivity. }
  subst w1. rewrite Hw1. clear Hw1.
  rewrite generate_website_run. cbn [self trace].
  change (api_key (answered_agent env1 request1 reply1 (self w)))
    with (api_key (self w)).
  rewrite Ht. cbv zeta.
  change (credential (answered_agent env1 request1 reply1 (self w)))
    with (credential (self w)).
  rewrite Hcred, outbound_asked.
  cbn [answered_agent conversation_history system_prompt].
  rewrite <- (app_assoc (conversation_history (self w))). cbn [app].
  rewrite skipn_keep_tail by (rewrite length_app; simpl; lia).
  rewrite map_app. cbn [map user_turn assistant_turn role content].
  rewrite <- app_assoc. cbn [app].
  set (older := map _ (skipn _ _)).
  assert (Hlen : length older <= 7).
  { unfold older. rewrite length_map, length_skipn, length_app.
    simpl. lia. }
  exists older.
  destruct (completion env2 key _) as [reply2|e]; cbn [snd trace].
  - exists []. split; [reflexivity | exact Hlen].
  - eexists. split; [|exact Hlen]. rewrite <- app_assoc. reflexivity.
Qed.

Lemma second_request_after_success_witness :
  let w1 := snd (generate_website (demo_env (Returned html_example))
                   (py "a page") (demo_world (Some (py "sk-1")))) in
  exists older rest,
    trace (snd (generate_website (demo_env (Raised (py "timed out")))
                  (py "make it blue") w1))
    = trace w1
      ++ ApiCall (py "sk-1")
           ({| msg_role := py "system"; msg_content := SYSTEM_PROMPT |}
            :: older
            ++ [ {| msg_role := py "user"; msg_content := py "a page" |};
                 {| msg_role := py "assistant";
                    msg_content := html_example |};
                 {| msg_role := py "user";
                    msg_content := py "make it blue" |} ])
      :: rest
    /\ length older <= 7.
Proof.
  apply (@second_request_after_success
           (demo_env (Returned html_example))
           (demo_env (Raised (py "timed out")))
           (py "a page") (py "make it blue") html_example (py "sk-1")
           (demo_world (Some (py "sk-1")))).
  - reflexivity.
  - discriminate.
  - reflexivity.
Defined.

(** X10: a failed call stays in the context. After a call whose
    completion request failed, the request of the next call ends with the
    failed user request followed directly by the new one, with no assistant
    message between them. *)
Theorem second_request_after_failure
  (env1 env2 : Env) (request1 request2 e1 key : str) (w : World) :
  api_key (self w) = Some key -> key <> [] ->
  completion env1 key
    (outbound_messages (asked_agent env1 request1 (self w)))
  = Raised e1 ->
  let w1 := snd (generate_website env1 request1 w) in
  exists older rest,
    trace (snd (generate_website env2 request2 w1))
    = trace w1
      ++ ApiCall key
           ({| msg_role := py "system";
               msg_content := system_prompt (self w) |}
            :: older
            ++ [ {| msg_role := py "user"; msg_content := request1 |};
                 {| msg_role := py "user"; msg_content := request2 |} ])
      :: rest
    /\ length older <= 8.
Proof.
  intros Hk Hne Hc w1.
  assert (Ht : truthy (api_key (self w)) = true)
    by (apply truthy_key; now exists key).
  assert (Hcred : credential (self w) = key)
    by (unfold credential; now rewrite Hk).
  assert (Hw1 : self (snd (generate_website env1 request1 w))
                = asked_agent env1 request1 (self w)).
  { rewrite generate_website_run, Ht. cbv zeta.
    rewrite Hcred, Hc. reflexivity. }
  subst w1. set (w1 := snd (generate_website env1 request1 w)) in *.
  rewrite generate_website_run, Hw1.
  change (api_key (asked_agent env1 request1 (self w)))
    with (api_key (self w)).
  rewrite Ht. cbv zeta.
  change (credential (asked_agent env1 request1 (self w)))
    with (credential (self w)).
  rewrite Hcred, outbound_asked.
  cbn [asked_agent conversation_history system_prompt].
  rewrite skipn_keep_tail by (rewrite length_app; simpl; lia).
  rewrite map_app. cbn [map user_turn role content].
  rewrite <- app_assoc. cbn [app].
  set (older := map _ (skipn _ _)).
  assert (Hlen : length older <= 8).
  { unfold older. rewrite length_map, length_skipn, length_app.
    simpl. lia. }
  exists older.
  destruct (completion env2 key _) as [reply2|e]; cbn [snd trace].
  - exists []. split; [reflexivity | exact Hlen].
  - eexists. split; [|exact Hlen]. rewrite <- app_assoc. reflexivity.
Qed.

Lemma second_request_after_failure_witness :
  let w1 := snd (generate_website (demo_env (Raised (py "timed out")))
                   (py "a page") (demo_world (Some (py "sk-1")))) in
  exists older rest,
    trace (snd (generate_website (demo_env (Returned html_example))
                  (py "again") w1))
    = trace w1
      ++ ApiCall (py "sk-1")
           ({| msg_role := py "system"; msg_content := SYSTEM_PROMPT |}
            :: older
            ++ [ {| msg_role := py "user"; msg_content := py "a page" |};
                 {| msg_role := py "user"; msg_content := py "again" |} ])
      :: rest
    /\ length older <= 8.
Proof.
  apply (@second_request_after_failure
           (demo_env (Raised (py "timed out")))
           (demo_env (Returned html_example))
           (py "a page") (py "again") (py "timed out") (py "sk-1")
           (demo_world (Some (py "sk-1")))).
  - reflexivity.
  - discriminate.
  - reflexivity.
Defined.

(** X11: [clear_history] cuts the context. The call that follows it sends
    the system message and the new user request and nothing else, whatever
    the history held before. *)
Theorem request_after_clear
  (env : Env) (user_request key : str) (w : World) :
  api_key (self w) = Some key -> key <> [] ->
  let w0 := snd (clear_history w) in
  exists rest,
    trace (snd (generate_website env user_request w0))
    = trace w
      ++ ApiCall key
           [ {| msg_role := py "system";
                msg_content := system_prompt (self w) |};
             {| msg_role := py "user"; msg_content := user_request |} ]
      :: rest.
Proof.
  intros Hk Hne w0. subst w0. rewrite generate_website_run.
  cbv [clear_history bind get_self set_self]. cbn [snd self trace api_key].
  assert (Ht : truthy (api_key (self w)) = true)
    by (apply truthy_key; now exists key).
  rewrite Ht. cbv zeta. rewrite outbound_asked.
  cbn [api_key conversation_history system_prompt length skipn
       map app Nat.sub].
  rewrite Hk. cbv [credential]. cbn [api_key].
  destruct (completion env key _) as [reply|e]; cbn [snd trace].
  - now exists [].
  - eexists. rewrite <- app_assoc. reflexivity.
Qed.

Lemma request_after_clear_witness :
  let w0 :=
    snd (clear_history
           (snd (generate_website (demo_env (Returned html_example))
                   (py "a page") (demo_world (Some (py "sk-1")))))) in
  exists rest,
    trace (snd (generate_website (demo_env (Returned html_example))
                  (py "start over") w0))
    = trace (snd (generate_website (demo_env (Returned html_example))
                    (py "a page") (demo_world (Some (py "sk-1")))))
      ++ ApiCall (py "sk-1")
           [ {| msg_role := py "system"; msg_content := SYSTEM_PROMPT |};
             {| msg_role := py "user"; msg_content := py "start over" |} ]
      :: rest.
Proof.
  apply (@request_after_clear (demo_env (Returned html_example))
           (py "start over") (py "sk-1")
           (snd (generate_website (demo_env (Returned html_example))
                   (py "a page") (demo_world (Some (py "sk-1")))))).
  - reflexivity.
  - discriminate.
Defined.

(** ** Properties of [save_code_to_file] *)

(** X12: [save_code_to_file] touches nothing when there is no generated
    code. Whatever it writes is the generated code, to the path given, and
    only after the directory was made and the file opened. *)
Theorem save_code_discipline
  (fs : FileSystem) (filepath : str) (a : AIWebAgent) :
  (generated_code a = [] ->
   save_code_to_file fs filepath a = (Returned tt, []))
  /\ (forall p d,
         In (FWrite p d) (snd (save_code_to_file fs filepath a)) ->
         p = filepath /\ d = generated_code a /\ d <> []
         /\ makedirs fs (dirname fs filepath) = Returned tt
         /\ open_w fs filepath = Returned tt
         /\ snd (save_code_to_file fs filepath a)
            = [Makedirs (dirname fs filepath); OpenW filepath;
               FWrite filepath (generated_code a)]).
Proof.
  unfold save_code_to_file. split.
  - intros ->. reflexivity.
  - intros p d. destruct (generated_code a) as [|c g] eqn:G; cbn [bool_str].
    + intros [].
    + destruct (makedirs fs (dirname fs filepath)) as [[]|e]; cbn [snd].
      * destruct (open_w fs filepath) as [[]|e]; cbn [snd].
        -- intros [H|[H|[H|[]]]]; try discriminate H.
           injection H as <- <-. repeat split. discriminate.
        -- intros [H|[H|[]]]; discriminate H.
      * intros [H|[]]; discriminate H.
Qed.

(** X13: after a call that succeeded, on a file system that lets the
    directory be made and the file be opened, [save_code_to_file] writes
    the code that was returned to the caller, and asks nothing of the file
    system when that code is empty. *)
Theorem save_after_generation
  (env : Env) (user_request reply key : str) (w : World)
  (fs : FileSystem) (filepath : str) :
  api_key (self w) = Some key -> key <> [] ->
  completion env key
    (outbound_messages (asked_agent env user_request (self w)))
  = Returned reply ->
  makedirs fs (dirname fs filepath) = Returned tt ->
  open_w fs filepath = Returned tt ->
  let c := snd (extract_code_from_response reply) in
  snd (save_code_to_file fs filepath
         (self (snd (generate_website env user_request w))))
  = match c with
    | [] => []
    | _ :: _ => [Makedirs (dirname fs filepath); OpenW filepath;
                 FWrite filepath c]
    end.
Proof.
  intros Hk Hne Hc Hm Ho c.
  assert (Ht : truthy (api_key (self w)) = true)
    by (apply truthy_key; now exists key).
  rewrite generate_website_run, Ht. cbv zeta.
  replace (credential (self w)) with key by (unfold credential; now rewrite Hk).
  rewrite Hc. cbn [snd self]. unfold save_code_to_file.
  cbn [answered_agent generated_code]. fold c.
  destruct c as [|x c]; [reflexivity|]. cbn [bool_str].
  now rewrite Hm, Ho.
Qed.

Lemma save_after_generation_witness :
  snd (save_code_to_file demo_fs (py "output/website.html")
         (self (snd (generate_website (demo_env (Returned html_example))
                       (py "a page") (demo_world (Some (py "sk-1")))))))
  = [Makedirs (py "output"); OpenW (py "output/website.html");
     FWrite (py "output/website.html") (py "<p>hi</p>")].
Proof.
  apply (@save_after_generation (demo_env (Returned html_example))
           (py "a page") html_example (py "sk-1")
           (demo_world (Some (py "sk-1"))) demo_fs
           (py "output/website.html")); try reflexivity.
  discriminate.
Defined.

Lemma save_code_discipline_witness :
  save_code_to_file demo_fs (py "output/website.html") (init None None)
  = (Returned tt, []).
Proof.
  apply (proj1 (save_code_discipline demo_fs (py "output/website.html")
                  (init None None))).
  reflexivity.
Defined.

(** ** Properties of the endpoints *)

Section ServerFacts.

Import Server.

(** [chat] up to the call of [generate_website]. *)
Lemma chat_run (env : Env) (request : MessageRequest) (w : World) :
  chat env request w =
  let w0 := {| self := keyed_agent request (self w); trace := trace w |} in
  if truthy (key_in_force request (self w)) then
    match generate_website env (message request) w0 with
    | (Returned result, w') =>
        (Returned
           (if bool_str (error result)
            then JSONResponse 500
                   (JDict [(py "code", JStr (code result));
                           (py "explanation", JStr (explanation result));
                           (py "error", JStr (error result))])
            else JSONResponse 200
                   (JDict [(py "code", JStr (code result));
                           (py "explanation", JStr (explanation result));
                           (py "error", JNull)])), w')
    | (Raised e, w') => (Raised e, w')
    end
  else
    (Returned
       (JSONResponse 400
          (JDict [(py "error",
                   JStr (py "API key not set. Please provide an API key."));
                  (py "code", JStr []);
                  (py "explanation", JStr [])])), w).
Proof.
  destruct w as [[k h g sp] tr]. destruct request as [msg rk].
  unfold chat, key_in_force, keyed_agent.
  cbn [request_api_key message self trace api_key conversation_history
       generated_code system_prompt].
  destruct rk as [[|c rk]|]; cbn [truthy];
    cbv [bind ret set_api_key get_self set_self];
    cbn [self trace api_key conversation_history generated_code
         system_prompt truthy negb].
  - destruct (truthy k) eqn:T; cbn [negb]; [|reflexivity].
    destruct (generate_website env msg _) as [[r|e] w']; [|reflexivity].
    destruct (bool_str (error r)); reflexivity.
  - destruct (generate_website env msg _) as [[r|e] w']; [|reflexivity].
    destruct (bool_str (error r)); reflexivity.
  - destruct (truthy k) eqn:T; cbn [negb]; [|reflexivity].
    destruct (generate_website env msg _) as [[r|e] w']; [|reflexivity].
    destruct (bool_str (error r)); reflexivity.
Qed.

(** X14: [chat] with no credential in the request and none on the agent
    answers 400 with its own message; the agent is as before and nothing is
    sent. *)
Theorem chat_without_key (env : Env) (request : MessageRequest) (w : World) :
  truthy (request_api_key request) = false ->
  truthy (api_key (self w)) = false ->
  chat env request w
  = (Returned
       (JSONResponse 400
          (JDict [(py "error",
                   JStr (py "API key not set. Please provide an API key."));
                  (py "code", JStr []);
                  (py "explanation", JStr [])])), w).
Proof.
  intros Hr Ha. rewrite chat_run. unfold key_in_force.
  now rewrite Hr, Ha.
Qed.

Lemma chat_without_key_witness :
  chat (demo_env (Returned html_example))
    {| message := py "a page"; request_api_key := Some [] |}
    (demo_world None)
  = (Returned
       (JSONResponse 400
          (JDict [(py "error",
                   JStr (py "API key not set. Please provide an API key."));
                  (py "code", JStr []);
                  (py "explanation", JStr [])])), demo_world None).
Proof.
  apply (@chat_without_key (demo_env (Returned html_example))
           {| message := py "a page"; request_api_key := Some [] |}
           (demo_world None)); reflexivity.
Defined.




End ServerFacts.

Section EndpointFacts.

Import Server.

(** X17: [POST /api/clear] without the confirm flag answers 400 and
    changes nothing. With the flag it answers 200, and from then on
    download answers 400, status reports no code and a conversation of
    length 0 with the credential flag as before, and history is an empty
    list. *)
Theorem clear_endpoint
  (isoformat : datetime -> str) (request : ClearHistoryRequest) (w : World) :
  if confirm request then
    exists w',
      clear_history request w
      = (Returned
           (JSONResponse 200
              (JDict [(py "message",
                       JStr (py "History cleared successfully"))])), w')
      /\ trace w' = trace w
      /\ download_code w'
         = (Returned
              (JSONResponse 400
                 (JDict [(py "error", JStr (py "No code generated yet"))])),
            w')
      /\ get_status w'
         = (Returned
              (JSONResponse 200
                 (JDict [(py "has_api_key",
                          JBool (truthy (api_key (self w))));
                         (py "has_generated_code", JBool false);
                         (py "conversation_length", JInt 0)])), w')
      /\ get_history isoformat w'
         = (Returned
              (JSONResponse 200
                 (JDict [(py "history", JList []);
                         (py "has_code", JBool false)])), w')
  else
    clear_history request w
    = (Returned
         (JSONResponse 400
            (JDict [(py "error",
                     JStr (py "Please set confirm=true to clear history"))])),
       w).
Proof.
  destruct request as [[|]]; cbn [confirm]; [|reflexivity].
  eexists. split; [reflexivity|]. repeat split.
Qed.

(** X18: after a [chat] answered from a reply of the completion endpoint,
    download gives the code of that answer under the fixed file name; when
    that code is empty, as for a reply without fenced block, download
    answers 400 although [chat] answered 200. *)
Theorem download_after_chat
  (env : Env) (request : MessageRequest) (key reply : str) (w : World) :
  key_in_force request (self w) = Some key -> key <> [] ->
  completion env key
    (outbound_messages
       (asked_agent env (message request) (keyed_agent request (self w))))
  = Returned reply ->
  let w' := snd (chat env request w) in
  let c := snd (extract_code_from_response reply) in
  download_code w'
  = (Returned
       match c with
       | [] => JSONResponse 400
                 (JDict [(py "error", JStr (py "No code generated yet"))])
       | _ :: _ => JSONResponse 200
                     (JDict [(py "code", JStr c);
                             (py "filename",
                              JStr (py "generated-website.html"))])
       end, w').
Proof.
  intros Hk Hne Hc w' c.
  assert (Ht : truthy (key_in_force request (self w)) = true)
    by (apply truthy_key; now exists key).
  assert (Hw : self w' = answered_agent env (message request) reply
                           (keyed_agent request (self w))).
  { unfold w'. rewrite chat_run, Ht. cbv zeta. rewrite generate_website_run.
    cbn [self api_key keyed_agent]. rewrite Ht. cbv zeta.
    replace (credential (keyed_agent request (self w))) with key
      by (unfold credential; cbn [api_key keyed_agent]; now rewrite Hk).
    rewrite Hc. reflexivity. }
  cbv [download_code bind get_self ret]. rewrite Hw.
  cbn [generated_code answered_agent]. fold c.
  destruct c; reflexivity.
Qed.

Lemma download_after_chat_witness :
  let w' := snd (chat (demo_env (Returned (py "No code, sorry.")))
                   {| message := py "a page";
                      request_api_key := Some (py "sk-2") |}
                   (demo_world None)) in
  download_code w'
  = (Returned
       (JSONResponse 400
          (JDict [(py "error", JStr (py "No code generated yet"))])), w').
Proof.
  apply (@download_after_chat (demo_env (Returned (py "No code, sorry.")))
           {| message := py "a page"; request_api_key := Some (py "sk-2") |}
           (py "sk-2") (py "No code, sorry.") (demo_world None)).
  - reflexivity.
  - discriminate.
  - reflexivity.
Defined.

End EndpointFacts.

Lemma generate_website_error_field_witness :
  exists r w',
    generate_website (demo_env (Raised (py "timed out"))) (py "a page")
      (demo_world (Some (py "sk-1")))
    = (Returned r, w')
    /\ (error r <> [] ->
        code r = [] /\ explanation r = []
        /\ generated_code (self w')
           = generated_code (self (demo_world (Some (py "sk-1"))))
        /\ length (conversation_history (self w'))
           <= length (conversation_history
                        (self (demo_world (Some (py "sk-1"))))) + 1
        /\ Forall (fun m =>
                     In m (conversation_history
                             (self (demo_world (Some (py "sk-1")))))
                     \/ role m = py "user")
             (conversation_history (self w')))
    /\ (error r = [] ->
        generated_code (self w') = code r
        /\ length (conversation_history (self w'))
           = length (conversation_history
                       (self (demo_world (Some (py "sk-1"))))) + 2).
Proof.
  exact (generate_website_error_field (demo_env (Raised (py "timed out")))
           (py "a page") (demo_world (Some (py "sk-1")))).
Defined.
